(** * Scene generator front end (src/index.tsx): model and properties

    The page keeps two module-level variables ([uploadedFile] and
    [uploadedFileAsBase64]) and a handful of DOM nodes.  Two asynchronous
    functions mutate them: [handleFileSelect] (suspends on the file read) and
    [generateScene] (suspends on the remote call).  Each is embedded as the
    part that runs up to its [await] and the part that resumes after it; an
    event system on top interleaves them the way the browser's event loop
    does. *)

From Stdlib Require Import List String Ascii NArith ZArith Bool Arith Lia.
From Stdlib.Strings Require Import Byte.
Import ListNotations.
Open Scope string_scope.

(** ** The platform's text-safe encoding (RFC 4648 base64)

    [FileReader.readAsDataURL] is the browser's, not the page's; it is
    modelled from the File API standard: the result is
    [data:<type>;base64,<base64 of the bytes>]. *)

Module Base64.

Definition alphabet : string :=
  "ABCDEFGHIJKLMNOPQRSTUVWXYZabcdefghijklmnopqrstuvwxyz0123456789+/".

Definition pad : ascii := "="%char.

(** The character of a six-bit value. *)
Definition digit (n : N) : ascii :=
  match String.get (N.to_nat n) alphabet with
  | Some c => c
  | None => pad
  end.

Fixpoint index_of (c : ascii) (s : string) : option N :=
  match s with
  | EmptyString => None
  | String d rest =>
      if Ascii.eqb c d then Some 0%N
      else option_map N.succ (index_of c rest)
  end.

(** The six-bit value of a character of the alphabet. *)
Definition value (c : ascii) : option N := index_of c alphabet.

Definition byte_of (n : N) : byte :=
  match Byte.of_N n with
  | Some b => b
  | None => x00
  end.

Fixpoint encode (bs : list byte) : string :=
  match bs with
  | [] => EmptyString
  | [a] =>
      let x := Byte.to_N a in
      String (digit (x / 4)) (String (digit ((x mod 4) * 16))
        (String pad (String pad EmptyString)))
  | [a; b] =>
      let x := Byte.to_N a in
      let y := Byte.to_N b in
      String (digit (x / 4)) (String (digit ((x mod 4) * 16 + y / 16))
        (String (digit ((y mod 16) * 4)) (String pad EmptyString)))
  | a :: b :: c :: rest =>
      let x := Byte.to_N a in
      let y := Byte.to_N b in
      let z := Byte.to_N c in
      String (digit (x / 4)) (String (digit ((x mod 4) * 16 + y / 16))
        (String (digit ((y mod 16) * 4 + z / 64)) (String (digit (z mod 64))
          (encode rest))))
  end%N.

Definition is_empty (s : string) : bool :=
  match s with EmptyString => true | _ => false end.

Fixpoint decode (s : string) : option (list byte) :=
  match s with
  | EmptyString => Some []
  | String c0 (String c1 (String c2 (String c3 rest))) =>
      match value c0, value c1 with
      | Some s0, Some s1 =>
          let b0 := byte_of (s0 * 4 + s1 / 16) in
          if Ascii.eqb c2 pad then
            if Ascii.eqb c3 pad && is_empty rest then Some [b0] else None
          else
            match value c2 with
            | Some s2 =>
                let b1 := byte_of ((s1 mod 16) * 16 + s2 / 4) in
                if Ascii.eqb c3 pad then
                  if is_empty rest then Some [b0; b1] else None
                else
                  match value c3, decode rest with
                  | Some s3, Some bs =>
                      Some (b0 :: b1 :: byte_of ((s2 mod 4) * 64 + s3) :: bs)
                  | _, _ => None
                  end
            | None => None
            end
      | _, _ => None
      end
  | _ => None
  end%N.

End Base64.

(** ** The string operations of the language that the page uses *)

(** [s.split(sep)] for a one-character separator. *)
Fixpoint split (sep : ascii) (s : string) : list string :=
  match s with
  | EmptyString => [EmptyString]
  | String c rest =>
      if Ascii.eqb c sep then EmptyString :: split sep rest
      else
        match split sep rest with
        | [] => [String c EmptyString]
        | hd :: tl => String c hd :: tl
        end
  end.

(** [s.startsWith(p)]. *)
Definition startsWith (p s : string) : bool := String.prefix p s.

(** No character of [s] is [c]. *)
Fixpoint lacks (c : ascii) (s : string) : bool :=
  match s with
  | EmptyString => true
  | String d rest => negb (Ascii.eqb d c) && lacks c rest
  end.

(** ** Data *)

(** A [File]: its name, its declared media type and its bytes. *)
Record File := {
  name : string;
  type : string;
  bytes : list byte
}.

(** [{ mimeType, data }] of an inline-data part. *)
Record Blob := {
  mimeType : string;
  data : string
}.

(** A content part: the page reads (and writes) [text] and [inlineData]. *)
Record Part := {
  text : option string;
  inlineData : option Blob
}.

Record Content := { parts : option (list Part) }.

Record Candidate := { content : option Content }.

(** The response of the remote call.  A field that may be missing from
    what the service returns is an [option] ([None] is [undefined]). *)
Record GenerateContentResponse := { candidates : option (list Candidate) }.

Inductive Modality := IMAGE | TEXT.

(** The argument of [ai.models.generateContent]. *)
Record Request := {
  model : string;
  contents : list Part;
  responseModalities : list Modality
}.

(** What a [throw] or a rejected promise carries: an [Error] instance
    (a [TypeError] is one too) or any other value, with its [String(...)]. *)
Inductive ErrorClass := PlainError | TypeErrorClass.

Inductive Thrown :=
| ErrorObject (cls : ErrorClass) (message : string)
| OtherValue (rendered : string).

(** How the promise of the remote call settles. *)
Inductive Settled :=
| Fulfilled (response : GenerateContentResponse)
| Rejected (reason : Thrown).

(** What the page does to the outside, in the order it does it. *)
Inductive Effect :=
| Alert (msg : string)
| ConsoleError (label : string) (error : Thrown)
| GenerateContent (request : Request).

(** The DOM nodes the page touches; [_hidden] is membership of the class
    [hidden] in the node's class list.  The source of the preview is an object
    URL, which stands for the file it was created from. *)
Record Dom := {
  imagePreview_src : option File;
  imagePreview_hidden : bool;
  uploadPlaceholder_hidden : bool;
  generateBtn_disabled : bool;
  generateBtn_textContent : string;
  resultImage_src : option string;
  resultImage_hidden : bool;
  resultPlaceholder_hidden : bool;
  loader_hidden : bool
}.

(** The page: its two variables, its DOM and the effects so far (oldest
    first). *)
Record State := {
  uploadedFile : option File;
  uploadedFileAsBase64 : option string;
  dom : Dom;
  effects : list Effect
}.

Definition PROMPT : string := "A cinematic scene inside a fast food restaurant at night.
Foreground: a lonely table with burgers and fries, and a smartphone shown large and sharp on the table, clearly displaying the uploaded anime/game character image.
A hand is reaching for food, symbolizing solitude.

Midground: in the blurred background, a couple is sitting together and kiss.
One of them is represented as a cosplayer version of the uploaded character:
– If the uploaded character is humanoid, show accurate cosplay with hairstyle, costume, and signature props.
– If the uploaded character is non-humanoid (mecha, creature, mascot, etc.), show a gijinka (humanized cosplay interpretation) that carries clear visual cues, costume colors, and props from the reference image (armor pieces, wings, ears, weapon, or iconic accessories).
The other person is an ordinary human, and they are showing intimate affection (kissing, holding hands, or sharing food).

Background: large glass windows, blurred neon city lights outside.
Mood: melancholic, bittersweet, ironic, cinematic shallow depth of field.

[reference: the uploaded image defines both the smartphone display and the cosplay design, with visible props emphasized]

Image size is 585px 1024px".

(** ** Field updates *)

Definition show_preview (file : File) (d : Dom) : Dom :=
  {| imagePreview_src := Some file;
     imagePreview_hidden := false;
     uploadPlaceholder_hidden := true;
     generateBtn_disabled := false;
     generateBtn_textContent := generateBtn_textContent d;
     resultImage_src := resultImage_src d;
     resultImage_hidden := resultImage_hidden d;
     resultPlaceholder_hidden := resultPlaceholder_hidden d;
     loader_hidden := loader_hidden d |}.

Definition set_result_hidden (image placeholder : bool) (d : Dom) : Dom :=
  {| imagePreview_src := imagePreview_src d;
     imagePreview_hidden := imagePreview_hidden d;
     uploadPlaceholder_hidden := uploadPlaceholder_hidden d;
     generateBtn_disabled := generateBtn_disabled d;
     generateBtn_textContent := generateBtn_textContent d;
     resultImage_src := resultImage_src d;
     resultImage_hidden := image;
     resultPlaceholder_hidden := placeholder;
     loader_hidden := loader_hidden d |}.

Definition set_resultImage_src (src : string) (d : Dom) : Dom :=
  {| imagePreview_src := imagePreview_src d;
     imagePreview_hidden := imagePreview_hidden d;
     uploadPlaceholder_hidden := uploadPlaceholder_hidden d;
     generateBtn_disabled := generateBtn_disabled d;
     generateBtn_textContent := generateBtn_textContent d;
     resultImage_src := Some src;
     resultImage_hidden := resultImage_hidden d;
     resultPlaceholder_hidden := resultPlaceholder_hidden d;
     loader_hidden := loader_hidden d |}.

Definition with_dom (f : Dom -> Dom) (s : State) : State :=
  {| uploadedFile := uploadedFile s;
     uploadedFileAsBase64 := uploadedFileAsBase64 s;
     dom := f (dom s);
     effects := effects s |}.

Definition perform (e : Effect) (s : State) : State :=
  {| uploadedFile := uploadedFile s;
     uploadedFileAsBase64 := uploadedFileAsBase64 s;
     dom := dom s;
     effects := effects s ++ [e] |}.

Definition set_uploadedFile (file : File) (s : State) : State :=
  {| uploadedFile := Some file;
     uploadedFileAsBase64 := uploadedFileAsBase64 s;
     dom := dom s;
     effects := effects s |}.

Definition set_uploadedFileAsBase64 (v : option string) (s : State) : State :=
  {| uploadedFile := uploadedFile s;
     uploadedFileAsBase64 := v;
     dom := dom s;
     effects := effects s |}.

(** ** The encoder: [fileToGenerativePart] (lines 45-63) *)

(** The data URL the reader produces for a file it could read. *)
Definition readAsDataURL (file : File) : string :=
  "data:" ++ type file ++ ";base64," ++ Base64.encode (bytes file).

(** What the promise of [fileToGenerativePart] settles to; [data] is
    [undefined] ([None]) when the split has no second piece. *)
Record GenerativePart := {
  part_mimeType : string;
  part_data : option string
}.

(** [result] is [reader.result] when [onloadend] fires: the data URL, or
    [null] after a failed read ([onerror] has then rejected already). *)
Definition fileToGenerativePart (file : File) (result : option string)
  : option GenerativePart :=
  match result with
  | Some url =>
      let base64Data := nth_error (split ","%char url) 1 in
      Some {| part_mimeType := type file; part_data := base64Data |}
  | None => None
  end.

(** ** The upload controller: [handleFileSelect] (lines 70-89) *)

(** Lines 70-84, up to the [await]: the new state and, when the file was
    accepted, the file whose read is now pending. *)
Definition handleFileSelect (file : option File) (s : State)
  : State * option File :=
  match file with
  | Some f =>
      if startsWith "image/" (type f) then
        (with_dom (show_preview f) (set_uploadedFile f s), Some f)
      else (perform (Alert "Please select a valid image file.") s, None)
  | None => (perform (Alert "Please select a valid image file.") s, None)
  end.

(** Lines 87-88, after the [await]: a rejected promise ends the function
    there (the rejection is nobody's to handle). *)
Definition handleFileSelect_resume (settled : option GenerativePart)
  (s : State) : State :=
  match settled with
  | Some part => set_uploadedFileAsBase64 (part_data part) s
  | None => s
  end.

(** ** The view state controller: [setLoading] (lines 158-168) *)

Definition setLoading (isLoading : bool) (d : Dom) : Dom :=
  {| imagePreview_src := imagePreview_src d;
     imagePreview_hidden := imagePreview_hidden d;
     uploadPlaceholder_hidden := uploadPlaceholder_hidden d;
     generateBtn_disabled := if isLoading then true else false;
     generateBtn_textContent :=
       if isLoading then "Generating..." else "Generate Scene";
     resultImage_src := resultImage_src d;
     resultImage_hidden := resultImage_hidden d;
     resultPlaceholder_hidden := resultPlaceholder_hidden d;
     loader_hidden := if isLoading then false else true |}.

(** ** The scene request client: [generateScene] (lines 95-151) *)

Definition build_request (file : File) (base64 : string) : Request :=
  let imagePart :=
    {| text := None;
       inlineData := Some {| mimeType := type file; data := base64 |} |} in
  let textPart := {| text := Some PROMPT; inlineData := None |} in
  {| model := "gemini-2.5-flash-image-preview";
     contents := [imagePart; textPart];
     responseModalities := [IMAGE; TEXT] |}.

(** Lines 96-124, up to the [await]: the new state and the request that was
    sent, if one was.  An empty string is as falsy as [null]. *)
Definition generateScene (s : State) : State * option Request :=
  match uploadedFile s, uploadedFileAsBase64 s with
  | Some file, Some (String _ _ as base64) =>
      let s1 := with_dom (setLoading true) s in
      let s2 :=
        with_dom (fun d => set_result_hidden (resultImage_hidden d) true d) s1 in
      let s3 :=
        with_dom (fun d => set_result_hidden true (resultPlaceholder_hidden d) d)
          s2 in
      let request := build_request file base64 in
      (perform (GenerateContent request) s3, Some request)
  | _, _ => (perform (Alert "Please upload an image first.") s, None)
  end.

(** [response.candidates[0].content.parts] with the iteration started
    (line 128): reading through [undefined] raises a [TypeError].  The texts
    are the engine's (V8's here); the page only passes them on. *)
Definition response_parts (response : GenerateContentResponse)
  : Thrown + list Part :=
  match candidates response with
  | None =>
      inl (ErrorObject TypeErrorClass
             "Cannot read properties of undefined (reading '0')")
  | Some [] =>
      inl (ErrorObject TypeErrorClass
             "Cannot read properties of undefined (reading 'content')")
  | Some (first :: _) =>
      match content first with
      | None =>
          inl (ErrorObject TypeErrorClass
                 "Cannot read properties of undefined (reading 'parts')")
      | Some c =>
          match parts c with
          | None =>
              inl (ErrorObject TypeErrorClass
                     "response.candidates[0].content.parts is not iterable")
          | Some ps => inr ps
          end
      end
  end.

(** Lines 130-133. *)
Definition show_result (blob : Blob) (d : Dom) : Dom :=
  let base64ImageBytes := data blob in
  let mimeType := mimeType blob in
  let d1 :=
    set_resultImage_src ("data:" ++ mimeType ++ ";base64," ++ base64ImageBytes)
      d in
  set_result_hidden false (resultPlaceholder_hidden d1) d1.

(** The loop of lines 127-137: the state and [generatedImageFound]. *)
Fixpoint scan_parts (ps : list Part) (s : State) : State * bool :=
  match ps with
  | [] => (s, false)
  | part :: rest =>
      match inlineData part with
      | Some blob => (with_dom (show_result blob) s, true)
      | None => scan_parts rest s
      end
  end.

Definition NO_IMAGE : string :=
  "No image was generated. The model may have refused the request.".

(** The [try] block from the [await] on (lines 118-141): the state and what
    was thrown, if anything. *)
Definition try_block (settled : Settled) (s : State) : State * option Thrown :=
  match settled with
  | Rejected reason => (s, Some reason)
  | Fulfilled response =>
      match response_parts response with
      | inl type_error => (s, Some type_error)
      | inr ps =>
          let (s', generatedImageFound) := scan_parts ps s in
          if generatedImageFound then (s', None)
          else (s', Some (ErrorObject PlainError NO_IMAGE))
      end
  end.

(** [error instanceof Error ? error.message : String(error)]. *)
Definition message_of (error : Thrown) : string :=
  match error with
  | ErrorObject _ message => message
  | OtherValue rendered => rendered
  end.

(** Lines 143-146. *)
Definition catch_block (error : Thrown) (s : State) : State :=
  let s1 := perform (ConsoleError "Error generating image:" error) s in
  let s2 := perform (Alert ("An error occurred: " ++ message_of error)) s1 in
  with_dom (fun d => set_result_hidden (resultImage_hidden d) false d) s2.

(** Lines 126-150, after the [await]. *)
Definition generateScene_resume (settled : Settled) (s : State) : State :=
  let (s1, thrown) := try_block settled s in
  let s2 :=
    match thrown with
    | Some error => catch_block error s1
    | None => s1
    end in
  with_dom (setLoading false) s2.

(** ** The event loop

    One task at a time runs to its next [await].  [reading] holds the files
    whose reads are pending (each with the suspended rest of
    [handleFileSelect]); [inflight] holds the requests whose calls are pending
    (each with the suspended rest of [generateScene]). *)

Record World := {
  page : State;
  reading : list File;
  inflight : list Request
}.

Inductive Event :=
| Select (file : option File)
| ReadEnd (k : nat) (ok : bool)
| Click
| Settle (k : nat) (outcome : Settled).

Fixpoint remove_at {A : Type} (k : nat) (l : list A) : list A :=
  match l, k with
  | [], _ => []
  | _ :: rest, O => rest
  | x :: rest, S k' => x :: remove_at k' rest
  end.

(** One task.  [None]: the event cannot happen in this state (no such
    pending read or call; a disabled button dispatches no click). *)
Definition step (w : World) (e : Event) : option World :=
  match e with
  | Select file =>
      let (s, pending) := handleFileSelect file (page w) in
      Some {| page := s;
              reading :=
                match pending with
                | Some f => reading w ++ [f]
                | None => reading w
                end;
              inflight := inflight w |}
  | ReadEnd k ok =>
      match nth_error (reading w) k with
      | Some f =>
          let result := if ok then Some (readAsDataURL f) else None in
          Some {| page :=
                    handleFileSelect_resume (fileToGenerativePart f result)
                      (page w);
                  reading := remove_at k (reading w);
                  inflight := inflight w |}
      | None => None
      end
  | Click =>
      if generateBtn_disabled (dom (page w)) then None
      else
        let (s, sent) := generateScene (page w) in
        Some {| page := s;
                reading := reading w;
                inflight :=
                  match sent with
                  | Some r => inflight w ++ [r]
                  | None => inflight w
                  end |}
  | Settle k outcome =>
      match nth_error (inflight w) k with
      | Some _ =>
          Some {| page := generateScene_resume outcome (page w);
                  reading := reading w;
                  inflight := remove_at k (inflight w) |}
      | None => None
      end
  end.

Fixpoint run (w : World) (es : list Event) : option World :=
  match es with
  | [] => Some w
  | e :: rest =>
      match step w e with
      | Some w' => run w' rest
      | None => None
      end
  end.

(** Modelled from the spec: the page's markup (index.html) is not part of
    the sources; the spec's user-facing surface has a trigger that is disabled
    until an image is ready, a result region that shows its placeholder, no
    preview and no progress indicator, and [setLoading false] restores the
    trigger's original label. *)
Definition initial_dom : Dom :=
  {| imagePreview_src := None;
     imagePreview_hidden := true;
     uploadPlaceholder_hidden := false;
     generateBtn_disabled := true;
     generateBtn_textContent := "Generate Scene";
     resultImage_src := None;
     resultImage_hidden := true;
     resultPlaceholder_hidden := false;
     loader_hidden := true |}.

(** Lines 32-33. *)
Definition initial_state : State :=
  {| uploadedFile := None;
     uploadedFileAsBase64 := None;
     dom := initial_dom;
     effects := [] |}.

Definition initial_world : World :=
  {| page := initial_state; reading := []; inflight := [] |}.

(** ** Vocabulary of the properties *)

(** What the [try] block throws for a settled call (it does not depend on the
    page, see [try_block_thrown]). *)
Definition thrown_by (settled : Settled) : option Thrown :=
  snd (try_block settled initial_state).




(** The payload the encoder yields for a file whose read succeeded. *)
Definition encoding_of (file : File) : option string :=
  match fileToGenerativePart file (Some (readAsDataURL file)) with
  | Some part => part_data part
  | None => None
  end.

(** In this state a click that gets past the guard consumes the encoding of
    the file that is selected. *)
Definition encoded_consistent_at_use (s : State) : Prop :=
  forall file request,
    uploadedFile s = Some file ->
    snd (generateScene s) = Some request ->
    uploadedFileAsBase64 s = encoding_of file.

(** The candidate that [handleFileSelect] turns away. *)
Definition rejected (file : option File) : bool :=
  match file with
  | Some f => negb (startsWith "image/" (type f))
  | None => true
  end.

Definition only_rejected (es : list Event) : bool :=
  forallb (fun e => match e with Select file => rejected file | _ => true end) es.

(** Orderly use: a file is selected only when no read is pending, and no
    read fails. *)
Definition orderly (w : World) (e : Event) : bool :=
  match e with
  | Select _ => match reading w with [] => true | _ => false end
  | ReadEnd _ ok => ok
  | _ => true
  end.

Fixpoint run_orderly (w : World) (es : list Event) : option World :=
  match es with
  | [] => Some w
  | e :: rest =>
      if orderly w e then
        match step w e with
        | Some w' => run_orderly w' rest
        | None => None
        end
      else None
  end.

(** As long as every candidate was turned away, nothing is pending and the
    page is the initial one but for its alerts. *)
Definition untouched (w : World) : Prop :=
  reading w = [] /\ inflight w = [] /\
  uploadedFile (page w) = None /\
  uploadedFileAsBase64 (page w) = None /\
  dom (page w) = initial_dom.


Definition Idle (d : Dom) : Prop :=
  loader_hidden d = true /\
  generateBtn_disabled d = false /\
  generateBtn_textContent d = "Generate Scene".

(** The two parts of a well-formed request. *)
Definition request_parts (media payload : string) : list Part :=
  [ {| text := None;
       inlineData := Some {| mimeType := media; data := payload |} |};
    {| text := Some PROMPT; inlineData := None |} ].

(** Every request in the effects is made of the two parts. *)
Definition requests_well_formed (s : State) : Prop :=
  forall r, In (GenerateContent r) (effects s) ->
            exists media payload, contents r = request_parts media payload.

(** No call of the run settles with an image. *)
Definition no_success (es : list Event) : bool :=
  forallb (fun e => match e with
                    | Settle _ outcome =>
                        match thrown_by outcome with
                        | Some _ => true
                        | None => false
                        end
                    | _ => true
                    end) es.

(** In an orderly run either no read is pending and the stored encoding is
    that of the selected file, or the one pending read is that of the selected
    file. *)
Definition in_step (w : World) : Prop :=
  (reading w = [] /\
   forall file, uploadedFile (page w) = Some file ->
                uploadedFileAsBase64 (page w) = encoding_of file) \/
  (exists file, reading w = [file] /\ uploadedFile (page w) = Some file).

(** ** Sample inputs *)

Definition cat_png : File :=
  {| name := "cat.png"; type := "image/png"; bytes := [x89; x50; x4e; x47] |}.

Definition dog_jpeg : File :=
  {| name := "dog.jpg"; type := "image/jpeg"; bytes := [xff; xd8; xff] |}.

Definition notes_txt : File :=
  {| name := "notes.txt"; type := "text/plain"; bytes := [x68; x69] |}.

(** A file whose declared media type has a comma in it. *)
Definition comma_file : File :=
  {| name := "odd.img"; type := "image/x,y"; bytes := [x01] |}.

Definition text_part (t : string) : Part :=
  {| text := Some t; inlineData := None |}.

Definition image_part (media payload : string) : Part :=
  {| text := None; inlineData := Some {| mimeType := media; data := payload |} |}.

Definition candidate_of (ps : list Part) : Candidate :=
  {| content := Some {| parts := Some ps |} |}.

(** The page once cat.png is selected and encoded. *)
Definition ready_state : State :=
  set_uploadedFileAsBase64 (Some "iVBORw==")
    (with_dom (show_preview cat_png) (set_uploadedFile cat_png initial_state)).

(** A text part followed by an image part, in the first candidate. *)
Definition text_then_image : GenerateContentResponse :=
  {| candidates :=
       Some [candidate_of [text_part "Here is your scene.";
                           image_part "image/png" "iVBORw0KGgo="]] |}.


Definition quota_exceeded : Settled :=
  Rejected (ErrorObject PlainError "quota exceeded").

(** Two overlapping attempts: the first call succeeds, then the second
    fails. *)
Definition overlapping_attempts : list Event :=
  [Select (Some cat_png); ReadEnd 0 true; Click;
   Select (Some dog_jpeg); Click;
   Settle 0 (Fulfilled text_then_image);
   Settle 0 quota_exceeded].

(** The second file is selected and its read is still pending. *)
Definition reselect_pending : list Event :=
  [Select (Some cat_png); ReadEnd 0 true; Select (Some dog_jpeg)].

(** ** The event listeners (lines 170-203)

    The listener of the trigger (line 206) is the [Click] of [step]. *)

(** The task that runs [handleFileSelect] up to its [await]. *)
Definition select_task (file : option File) (w : World) : World :=
  let (s, pending) := handleFileSelect file (page w) in
  {| page := s;
     reading :=
       match pending with
       | Some f => reading w ++ [f]
       | None => reading w
       end;
     inflight := inflight w |}.

(** [if (files && files.length > 0) handleFileSelect(files[0])]; [None] is a
    missing file list. *)
Definition select_first (files : option (list File)) (w : World) : World :=
  match files with
  | Some (first :: _) => select_task (Some first) w
  | _ => w
  end.

(** The page with the inline border colour of the upload box ([None]: not
    set) and the number of times the file picker was opened. *)
Record Surface := {
  world : World;
  uploadBox_borderColor : option string;
  picker_clicks : nat
}.

Inductive Listener :=
| UploadBoxClick
| ImageUploadChange (files : option (list File))
| DragOver
| DragLeave
| Drop (files : option (list File)).

Definition listen (u : Surface) (l : Listener) : Surface :=
  match l with
  | UploadBoxClick =>
      {| world := world u;
         uploadBox_borderColor := uploadBox_borderColor u;
         picker_clicks := S (picker_clicks u) |}
  | ImageUploadChange files =>
      {| world := select_first files (world u);
         uploadBox_borderColor := uploadBox_borderColor u;
         picker_clicks := picker_clicks u |}
  | DragOver =>
      {| world := world u;
         uploadBox_borderColor := Some "var(--primary-color)";
         picker_clicks := picker_clicks u |}
  | DragLeave =>
      {| world := world u;
         uploadBox_borderColor := Some "var(--border-color)";
         picker_clicks := picker_clicks u |}
  | Drop files =>
      {| world := select_first files (world u);
         uploadBox_borderColor := Some "var(--border-color)";
         picker_clicks := picker_clicks u |}
  end.

Definition listen_all (u : Surface) (ls : list Listener) : Surface :=
  fold_left listen ls u.

(** The calls of [handleFileSelect] a run of listeners makes. *)
Fixpoint selects_of (ls : list Listener) : list Event :=
  match ls with
  | [] => []
  | ImageUploadChange (Some (first :: _)) :: rest =>
      Select (Some first) :: selects_of rest
  | Drop (Some (first :: _)) :: rest => Select (Some first) :: selects_of rest
  | _ :: rest => selects_of rest
  end.

(** ** Vocabulary of the further properties *)

Definition is_image (file : File) : bool := startsWith "image/" (type file).

(** The source the page gives the result image for an inline-data part. *)
Definition data_url (blob : Blob) : string :=
  "data:" ++ mimeType blob ++ ";base64," ++ data blob.

(** The DOM once an attempt has got past the guard (lines 102-104). *)
Definition enter_loading (d : Dom) : Dom :=
  set_result_hidden true true (setLoading true d).

(** A request built from an image file and a non-empty payload. *)
Definition image_request (r : Request) : Prop :=
  exists file c b,
    is_image file = true /\ r = build_request file (String c b).

(** Only image files are stored, read or sent. *)
Definition only_images (w : World) : Prop :=
  (forall file, uploadedFile (page w) = Some file -> is_image file = true) /\
  (forall file, In file (reading w) -> is_image file = true) /\
  (forall r, In r (inflight w) -> image_request r) /\
  (forall r, In (GenerateContent r) (effects (page w)) -> image_request r).

(** The trigger is enabled, or a call is pending, only with a file
    selected. *)
Definition trigger_needs_file (w : World) : Prop :=
  (generateBtn_disabled (dom (page w)) = false \/ inflight w <> []) ->
  uploadedFile (page w) <> None.

(** The progress indicator and the label of the trigger go together, and the
    indicator is shown only while a call is pending. *)
Definition loader_in_step (w : World) : Prop :=
  (loader_hidden (dom (page w)) = false /\
   generateBtn_textContent (dom (page w)) = "Generating..." /\
   inflight w <> []) \/
  (loader_hidden (dom (page w)) = true /\
   generateBtn_textContent (dom (page w)) = "Generate Scene").

(** The result region shows the indicator, the placeholder or the image. *)
Definition result_region_filled (d : Dom) : Prop :=
  loader_hidden d = false \/
  resultPlaceholder_hidden d = false \/
  resultImage_hidden d = false.

(** A result image that is shown has the data URL of an inline-data part. *)
Definition shown_image_has_source (d : Dom) : Prop :=
  resultImage_hidden d = false ->
  exists blob, resultImage_src d = Some (data_url blob).

(** The files a run hands to [handleFileSelect] and that it accepts. *)
Fixpoint accepted_files (es : list Event) : list File :=
  match es with
  | [] => []
  | Select (Some f) :: rest =>
      if is_image f then f :: accepted_files rest else accepted_files rest
  | _ :: rest => accepted_files rest
  end.

(** The stored encoding is the one the run started with or the encoder's
    output for a file of [files]; the pending reads are of files of [files]. *)
Definition encoding_from (files : list File) (before : option string)
  (w : World) : Prop :=
  (forall f, In f (reading w) -> In f files) /\
  (uploadedFileAsBase64 (page w) = before \/
   exists f, In f files /\ uploadedFileAsBase64 (page w) = encoding_of f).

(** The three alerts of the page; the third names an error that was logged. *)
Definition alert_is_known (fx : list Effect) (msg : string) : Prop :=
  msg = "Please select a valid image file." \/
  msg = "Please upload an image first." \/
  exists error,
    msg = "An error occurred: " ++ message_of error /\
    In (ConsoleError "Error generating image:" error) fx.

Definition alerts_known (s : State) : Prop :=
  forall msg, In (Alert msg) (effects s) -> alert_is_known (effects s) msg.

(** The number of requests among the effects. *)
Fixpoint requests_sent (fx : list Effect) : nat :=
  match fx with
  | [] => 0
  | GenerateContent _ :: rest => S (requests_sent rest)
  | _ :: rest => requests_sent rest
  end.

(** The clicks and the settled calls of a run. *)
Fixpoint clicks (es : list Event) : nat :=
  match es with
  | [] => 0
  | Click :: rest => S (clicks rest)
  | _ :: rest => clicks rest
  end.

Fixpoint settles (es : list Event) : nat :=
  match es with
  | [] => 0
  | Settle _ _ :: rest => S (settles rest)
  | _ :: rest => settles rest
  end.

(** The first part with inline data among the parts of the first candidate:
    parts without inline data, then [image], which carries [blob]. *)
Definition first_image (response : GenerateContentResponse) (blob : Blob)
  : Prop :=
  exists texts image rest others,
    candidates response =
      Some (candidate_of (texts ++ image :: rest) :: others) /\
    (forall p, In p texts -> inlineData p = None) /\
    inlineData image = Some blob.

(** The task of a call fulfilled with such a response. *)
Definition settles_with_image (e : Event) : Prop :=
  exists k response blob,
    e = Settle k (Fulfilled response) /\ first_image response blob.

(** An image file without bytes. *)
Definition empty_png : File :=
  {| name := "empty.png"; type := "image/png"; bytes := [] |}.

(** The page as loaded, with no inline border colour on the upload box yet. *)
Definition fresh_surface : Surface :=
  {| world := initial_world;
     uploadBox_borderColor := None;
     picker_clicks := 0 |}.

(** * Properties *)

Module Base64Facts.
Import Base64.

Lemma value_digit (n : N) : (n < 64)%N -> value (digit n) = Some n.
Proof.
  intros H.
  assert (E : forallb (fun k => match value (digit k) with
                                | Some m => N.eqb m k
                                | None => false
                                end)
                      (map N.of_nat (seq 0 64)) = true) by (vm_compute; reflexivity).
  rewrite forallb_forall in E.
  specialize (E n).
  assert (I : In n (map N.of_nat (seq 0 64))).
  { apply in_map_iff. exists (N.to_nat n). split; [apply N2Nat.id|].
    apply in_seq. lia. }
  specialize (E I). destruct (value (digit n)) as [m|]; [|discriminate].
  apply N.eqb_eq in E. now subst.
Qed.

Lemma digit_not_pad (n : N) : (n < 64)%N -> Ascii.eqb (digit n) pad = false.
Proof.
  intros H.
  assert (E : forallb (fun k => negb (Ascii.eqb (digit k) pad))
                      (map N.of_nat (seq 0 64)) = true) by (vm_compute; reflexivity).
  rewrite forallb_forall in E.
  assert (I : In n (map N.of_nat (seq 0 64))).
  { apply in_map_iff. exists (N.to_nat n). split; [apply N2Nat.id|].
    apply in_seq. lia. }
  specialize (E n I). now apply negb_true_iff in E.
Qed.

Ltac n_arith := intros; zify; Z.to_euclidean_division_equations; lia.

Lemma digit_not_comma (n : N) :
  (n < 64)%N -> Ascii.eqb (digit n) ","%char = false.
Proof.
  intros H.
  assert (E : forallb (fun k => negb (Ascii.eqb (digit k) ","%char))
                      (map N.of_nat (seq 0 64)) = true) by (vm_compute; reflexivity).
  rewrite forallb_forall in E.
  assert (I : In n (map N.of_nat (seq 0 64))).
  { apply in_map_iff. exists (N.to_nat n). split; [apply N2Nat.id|].
    apply in_seq. lia. }
  specialize (E n I). now apply negb_true_iff in E.
Qed.

Lemma byte_of_to_N (b : byte) : byte_of (Byte.to_N b) = b.
Proof. unfold byte_of. now rewrite Byte.of_to_N. Qed.

Lemma to_N_lt (b : byte) : (Byte.to_N b < 256)%N.
Proof. pose proof (Byte.to_N_bounded b). lia. Qed.

(** Induction three bytes at a time, the way [encode] recurses. *)
Lemma list_ind3 {A : Type} (P : list A -> Prop) :
  P [] ->
  (forall a, P [a]) ->
  (forall a b, P [a; b]) ->
  (forall a b c rest, P rest -> P (a :: b :: c :: rest)) ->
  forall l, P l.
Proof.
  intros H0 H1 H2 H3 l.
  enough (G : P l /\ (forall a, P (a :: l)) /\ (forall a b, P (a :: b :: l)))
    by apply G.
  induction l as [|x l [IH0 [IH1 IH2]]].
  - repeat split; auto.
  - repeat split; auto.
Qed.

Lemma decode_encode (bs : list byte) : decode (encode bs) = Some bs.
Proof.
  induction bs as [|a|a b|a b c rest IH] using list_ind3.
  - reflexivity.
  - pose proof (to_N_lt a) as Ha.
    cbn [encode decode].
    rewrite !value_digit by n_arith.
    rewrite Ascii.eqb_refl. cbn [andb is_empty].
    replace (_ + _)%N with (Byte.to_N a) by n_arith.
    now rewrite byte_of_to_N.
  - pose proof (to_N_lt a) as Ha. pose proof (to_N_lt b) as Hb.
    cbn [encode decode].
    rewrite !value_digit by n_arith.
    rewrite digit_not_pad by n_arith.
    rewrite Ascii.eqb_refl. cbn [is_empty].
    replace (_ / 4 * 4 + _)%N with (Byte.to_N a) by n_arith.
    replace (_ * 16 + _)%N with (Byte.to_N b) by n_arith.
    now rewrite !byte_of_to_N.
  - pose proof (to_N_lt a) as Ha. pose proof (to_N_lt b) as Hb.
    pose proof (to_N_lt c) as Hc.
    cbn [encode]. cbn [decode]. fold decode.
    rewrite !value_digit by n_arith.
    rewrite !digit_not_pad by n_arith.
    rewrite IH.
    replace (_ / 4 * 4 + _)%N with (Byte.to_N a) by n_arith.
    replace (_ * 16 + _)%N with (Byte.to_N b) by n_arith.
    replace (_ * 64 + _)%N with (Byte.to_N c) by n_arith.
    now rewrite !byte_of_to_N.
Qed.

Lemma encode_lacks_comma (bs : list byte) :
  lacks ","%char (encode bs) = true.
Proof.
  induction bs as [|a|a b|a b c rest IH] using list_ind3.
  - reflexivity.
  - pose proof (to_N_lt a). cbn [encode lacks].
    rewrite !digit_not_comma by n_arith. reflexivity.
  - pose proof (to_N_lt a). pose proof (to_N_lt b). cbn [encode lacks].
    rewrite !digit_not_comma by n_arith. reflexivity.
  - pose proof (to_N_lt a). pose proof (to_N_lt b). pose proof (to_N_lt c).
    cbn [encode lacks].
    rewrite !digit_not_comma by n_arith. now rewrite IH.
Qed.

End Base64Facts.

Section SplitFacts.

Variable sep : ascii.

Lemma split_lacks (s : string) : lacks sep s = true -> split sep s = [s].
Proof.
  induction s as [|c s IH]; cbn [split lacks]; [reflexivity|].
  intros H. apply andb_true_iff in H as [Hc Hs].
  apply negb_true_iff in Hc. rewrite Hc, (IH Hs). reflexivity.
Qed.

Lemma split_app (s1 s2 : string) :
  lacks sep s1 = true ->
  split sep (s1 ++ String sep s2) = s1 :: split sep s2.
Proof.
  induction s1 as [|c s1 IH]; cbn [split lacks append].
  - intros _. now rewrite Ascii.eqb_refl.
  - intros H. apply andb_true_iff in H as [Hc Hs].
    apply negb_true_iff in Hc. rewrite Hc, (IH Hs). reflexivity.
Qed.

Lemma lacks_app (s1 s2 : string) :
  lacks sep (s1 ++ s2) = lacks sep s1 && lacks sep s2.
Proof.
  induction s1 as [|c s1 IH]; cbn [lacks append]; [reflexivity|].
  now rewrite IH, andb_assoc.
Qed.

End SplitFacts.

Lemma append_assoc (a b c : string) : (a ++ b) ++ c = a ++ (b ++ c).
Proof. induction a as [|x a IH]; cbn [append]; [reflexivity|now rewrite IH]. Qed.

(** The encoder on a file whose read succeeded: the media type is the file's
    and, when the media type has no comma, the payload is the base64 of the
    bytes. *)
Lemma fileToGenerativePart_loaded (file : File) :
  lacks ","%char (type file) = true ->
  fileToGenerativePart file (Some (readAsDataURL file)) =
  Some {| part_mimeType := type file;
          part_data := Some (Base64.encode (bytes file)) |}.
Proof.
  intros H. unfold fileToGenerativePart, readAsDataURL.
  replace ("data:" ++ type file ++ ";base64," ++ Base64.encode (bytes file))
    with (("data:" ++ type file ++ ";base64") ++
          String ","%char (Base64.encode (bytes file))).
  2:{ rewrite !append_assoc. reflexivity. }
  rewrite split_app.
  2:{ rewrite !lacks_app, H. reflexivity. }
  rewrite split_lacks by apply Base64Facts.encode_lacks_comma.
  reflexivity.
Qed.

(** ** Facts about the two halves of [generateScene] *)

Lemma generateScene_sent (s : State) (file : File) (c : ascii) (b : string) :
  uploadedFile s = Some file ->
  uploadedFileAsBase64 s = Some (String c b) ->
  exists loading,
    generateScene s =
      (perform (GenerateContent (build_request file (String c b))) loading,
       Some (build_request file (String c b))) /\
    uploadedFile loading = uploadedFile s /\
    uploadedFileAsBase64 loading = uploadedFileAsBase64 s /\
    effects loading = effects s /\
    loader_hidden (dom loading) = false /\
    generateBtn_disabled (dom loading) = true /\
    generateBtn_textContent (dom loading) = "Generating..." /\
    resultImage_hidden (dom loading) = true /\
    resultPlaceholder_hidden (dom loading) = true.
Proof.
  intros Hf Hb. unfold generateScene. rewrite Hf, Hb.
  eexists. split; [reflexivity|]. cbn. now rewrite Hf, Hb.
Qed.

Lemma generateScene_refused (s : State) :
  snd (generateScene s) = None ->
  generateScene s = (perform (Alert "Please upload an image first.") s, None).
Proof.
  unfold generateScene.
  destruct (uploadedFile s); [|reflexivity].
  destruct (uploadedFileAsBase64 s) as [[|c b]|]; try reflexivity.
  discriminate.
Qed.

(** A request is sent exactly when both variables are truthy. *)
Lemma generateScene_sent_inv (s s1 : State) (r : Request) :
  generateScene s = (s1, Some r) ->
  exists file c b,
    uploadedFile s = Some file /\
    uploadedFileAsBase64 s = Some (String c b) /\
    r = build_request file (String c b).
Proof.
  unfold generateScene.
  destruct (uploadedFile s) as [file|]; [|discriminate].
  destruct (uploadedFileAsBase64 s) as [[|c b]|]; try discriminate.
  intros E. injection E as _ <-. now exists file, c, b.
Qed.

Lemma scan_parts_none (ps : list Part) (s : State) :
  (forall p, In p ps -> inlineData p = None) ->
  scan_parts ps s = (s, false).
Proof.
  induction ps as [|p ps IH]; intros H; cbn [scan_parts]; [reflexivity|].
  rewrite (H p (or_introl eq_refl)). apply IH.
  intros q Hq. apply H. now right.
Qed.

Lemma scan_parts_first (texts : list Part) (image : Part) (rest : list Part)
  (blob : Blob) (s : State) :
  (forall p, In p texts -> inlineData p = None) ->
  inlineData image = Some blob ->
  scan_parts (texts ++ image :: rest) s = (with_dom (show_result blob) s, true).
Proof.
  intros Ht Hi. induction texts as [|p texts IH]; cbn [scan_parts app].
  - now rewrite Hi.
  - rewrite (Ht p (or_introl eq_refl)). apply IH.
    intros q Hq. apply Ht. now right.
Qed.

(** The loop either finds nothing and leaves the state alone, or stops at the
    first part with inline data. *)
Lemma scan_parts_found (ps : list Part) (s : State) :
  snd (scan_parts ps s) = true <->
  exists p, In p ps /\ inlineData p <> None.
Proof.
  induction ps as [|p ps IH]; cbn [scan_parts].
  - split; [discriminate|]. intros [p [[] _]].
  - destruct (inlineData p) as [blob|] eqn:E.
    + split; [|reflexivity]. intros _. exists p. split; [now left|].
      now rewrite E.
    + rewrite IH. split.
      * intros [q [Hq Hn]]. exists q. split; [now right|assumption].
      * intros [q [[->|Hq] Hn]]; [now rewrite E in Hn|]. now exists q.
Qed.

Lemma scan_parts_frame (ps : list Part) (s : State) :
  uploadedFile (fst (scan_parts ps s)) = uploadedFile s /\
  uploadedFileAsBase64 (fst (scan_parts ps s)) = uploadedFileAsBase64 s /\
  effects (fst (scan_parts ps s)) = effects s.
Proof.
  induction ps as [|p ps IH]; cbn [scan_parts]; [now repeat split|].
  destruct (inlineData p); [now repeat split|apply IH].
Qed.

Lemma try_block_thrown (settled : Settled) (s : State) :
  snd (try_block settled s) = thrown_by settled.
Proof.
  unfold thrown_by, try_block. destruct settled as [response|reason]; [|reflexivity].
  destruct (response_parts response) as [e|ps]; [reflexivity|].
  pose proof (scan_parts_found ps s) as F.
  pose proof (scan_parts_found ps initial_state) as G.
  destruct (scan_parts ps s) as [s1 [|]], (scan_parts ps initial_state) as [s2 [|]];
    cbn [snd] in *; try reflexivity.
  - assert (T : true = true) by reflexivity. apply F in T. apply G in T. discriminate.
  - assert (T : true = true) by reflexivity. apply G in T. apply F in T. discriminate.
Qed.

(** A failed [try] block leaves the page as it found it. *)
Lemma try_block_failed (settled : Settled) (s : State) (error : Thrown) :
  thrown_by settled = Some error ->
  try_block settled s = (s, Some error).
Proof.
  intros H. rewrite <- (try_block_thrown settled s) in H.
  unfold try_block in *. destruct settled as [response|reason].
  - destruct (response_parts response) as [e|ps].
    + cbn [snd] in H. now rewrite H.
    + destruct (scan_parts ps s) as [s1 found] eqn:E.
      destruct found; [discriminate|]. cbn [snd] in H. rewrite <- H.
      assert (N : forall p, In p ps -> inlineData p = None).
      { intros p Hp. destruct (inlineData p) eqn:Ep; [|reflexivity].
        assert (F : snd (scan_parts ps s) = true).
        { apply scan_parts_found. exists p. split; [assumption|]. now rewrite Ep. }
        rewrite E in F. discriminate. }
      rewrite (scan_parts_none ps s N) in E. now injection E as <-.
  - cbn [snd] in H. now rewrite H.
Qed.

(** ** Response handling *)


(** The parts are reached exactly through the first candidate, its content
    and the parts list of that content. *)
Lemma response_parts_inr (response : GenerateContentResponse)
  (ps : list Part) :
  response_parts response = inr ps <->
  exists others, candidates response = Some (candidate_of ps :: others).
Proof.
  unfold response_parts, candidate_of.
  destruct response as [[[|[[[[ps'|]]|]] others]|]]; cbn; split;
    try discriminate; try (intros [others' E]; discriminate E).
  - intros E. injection E as <-. now exists others.
  - intros [others' E]. now injection E as <- <-.
Qed.



(** C3: when the parts of the first candidate are parts without inline data
    (text parts) followed by a part with inline data, the result image gets
    the data URL made of that part's media type and payload and is shown;
    nothing is alerted, whatever the text parts say. *)
Theorem first_inline_part_is_displayed (s : State) (texts : list Part)
  (image : Part) (rest : list Part) (others : list Candidate) (blob : Blob) :
  (forall p, In p texts -> inlineData p = None) ->
  inlineData image = Some blob ->
  let response :=
    {| candidates := Some (candidate_of (texts ++ image :: rest) :: others) |} in
  let s' := generateScene_resume (Fulfilled response) s in
  resultImage_src (dom s') =
    Some ("data:" ++ mimeType blob ++ ";base64," ++ data blob) /\
  resultImage_hidden (dom s') = false /\
  resultPlaceholder_hidden (dom s') = resultPlaceholder_hidden (dom s) /\
  effects s' = effects s.
Proof.
  intros Ht Hi response s'. subst s' response.
  unfold generateScene_resume, try_block. cbn [response_parts candidates
    candidate_of content parts].
  rewrite (scan_parts_first texts image rest blob s Ht Hi).
  cbn. repeat split; reflexivity.
Qed.

Lemma first_inline_part_is_displayed_witness :
  let s' := generateScene_resume (Fulfilled text_then_image) initial_state in
  resultImage_src (dom s') = Some "data:image/png;base64,iVBORw0KGgo=" /\
  resultImage_hidden (dom s') = false.
Proof.
  pose proof (first_inline_part_is_displayed initial_state
                [text_part "Here is your scene."]
                (image_part "image/png" "iVBORw0KGgo=") [] []
                {| mimeType := "image/png"; data := "iVBORw0KGgo=" |}) as H.
  cbn zeta in H.
  destruct H as [H1 [H2 _]].
  - intros p [<-|[]]. reflexivity.
  - reflexivity.
  - split; [exact H1|exact H2].
Defined.

(** ** Runs of the event loop *)

(** A property kept by every task holds after every run. *)
Lemma run_invariant (I : World -> Prop) :
  (forall w e w', I w -> step w e = Some w' -> I w') ->
  forall es w w', I w -> run w es = Some w' -> I w'.
Proof.
  intros Hstep es. induction es as [|e es IH]; intros w w' Hw; cbn [run].
  - intros E. now injection E as <-.
  - destruct (step w e) as [w1|] eqn:S; [|discriminate].
    apply IH. exact (Hstep w e w1 Hw S).
Qed.

Lemma run_orderly_run (es : list Event) (w w' : World) :
  run_orderly w es = Some w' -> run w es = Some w'.
Proof.
  revert w. induction es as [|e es IH]; intros w; cbn [run run_orderly];
    [trivial|].
  destruct (orderly w e); [|discriminate].
  destruct (step w e); [apply IH|discriminate].
Qed.

(** ** The upload controller *)

Lemma handleFileSelect_rejected (file : option File) (s : State) :
  rejected file = true ->
  handleFileSelect file s =
    (perform (Alert "Please select a valid image file.") s, None).
Proof.
  unfold rejected, handleFileSelect. destruct file as [f|]; [|reflexivity].
  intros H. apply negb_true_iff in H. now rewrite H.
Qed.

Lemma untouched_run (es : list Event) (w w' : World) :
  only_rejected es = true ->
  untouched w -> run w es = Some w' -> untouched w'.
Proof.
  revert w. induction es as [|e es IH]; intros w Hr Hw; cbn [run].
  - intros E. now injection E as <-.
  - cbn [only_rejected forallb] in Hr. apply andb_true_iff in Hr as [He Hes].
    destruct Hw as (R & F & U & B & D).
    destruct e as [file|k ok| |k outcome]; cbn [step].
    + rewrite (handleFileSelect_rejected file (page w) He).
      apply IH; [exact Hes|]. now repeat split.
    + rewrite R. destruct k; discriminate.
    + rewrite D. discriminate.
    + rewrite F. destruct k; discriminate.
Qed.

(** C4: for an absent candidate and for a candidate whose media type does
    not start with "image/", the upload controller alerts and changes nothing
    else: the two variables, the DOM and what is pending are as before, and
    no read is started.  Hence, in a run from the initial page in which
    every candidate was such a one, no image is selected or encoded and the
    trigger is still disabled. *)
Theorem non_image_is_rejected (file : option File) :
  (file = None \/
   exists f, file = Some f /\ startsWith "image/" (type f) = false) ->
  (forall s,
     handleFileSelect file s =
       (perform (Alert "Please select a valid image file.") s, None)) /\
  (forall w,
     step w (Select file) =
       Some {| page := perform (Alert "Please select a valid image file.")
                         (page w);
               reading := reading w;
               inflight := inflight w |}) /\
  (forall es w,
     only_rejected (es ++ [Select file]) = true ->
     run initial_world (es ++ [Select file]) = Some w ->
     uploadedFile (page w) = None /\
     uploadedFileAsBase64 (page w) = None /\
     generateBtn_disabled (dom (page w)) = true).
Proof.
  intros H.
  assert (R : rejected file = true).
  { destruct H as [->|[f [-> Hf]]]; [reflexivity|]. cbn. now rewrite Hf. }
  split; [|split].
  - intros s. now apply handleFileSelect_rejected.
  - intros w. cbn [step]. now rewrite (handleFileSelect_rejected file (page w) R).
  - intros es w Hr Hrun.
    assert (U : untouched w).
    { apply (untouched_run (es ++ [Select file]) initial_world w Hr);
        [now repeat split|exact Hrun]. }
    destruct U as (_ & _ & U & B & D). rewrite D. now repeat split.
Qed.

Lemma non_image_is_rejected_witness :
  handleFileSelect (Some notes_txt) initial_state =
    (perform (Alert "Please select a valid image file.") initial_state, None).
Proof.
  apply (non_image_is_rejected (Some notes_txt)).
  right. exists notes_txt. split; reflexivity.
Defined.

(** ** The scene request client *)

(** C5: when the selected image or its encoding is absent, [generateScene]
    alerts "Please upload an image first." and returns: no request is sent and
    the page is otherwise unchanged. *)
Theorem generation_needs_image_and_encoding (s : State) :
  uploadedFile s = None \/ uploadedFileAsBase64 s = None ->
  generateScene s = (perform (Alert "Please upload an image first.") s, None) /\
  (forall w,
     page w = s ->
     generateBtn_disabled (dom s) = false ->
     step w Click =
       Some {| page := perform (Alert "Please upload an image first.") s;
               reading := reading w;
               inflight := inflight w |}).
Proof.
  intros H.
  assert (E : generateScene s =
              (perform (Alert "Please upload an image first.") s, None)).
  { unfold generateScene. destruct H as [-> | ->]; [reflexivity|].
    now destruct (uploadedFile s). }
  split; [exact E|].
  intros w <- D. cbn [step]. now rewrite D, E.
Qed.

Lemma generation_needs_image_and_encoding_witness :
  generateScene initial_state =
    (perform (Alert "Please upload an image first.") initial_state, None).
Proof.
  apply (generation_needs_image_and_encoding initial_state).
  left. reflexivity.
Defined.

Lemma generateScene_resume_idle (outcome : Settled) (s : State) :
  Idle (dom (generateScene_resume outcome s)).
Proof.
  unfold generateScene_resume.
  destruct (try_block outcome s) as [s1 [error|]]; now repeat split.
Qed.



Lemma generateScene_frame (s : State) :
  uploadedFile (fst (generateScene s)) = uploadedFile s /\
  uploadedFileAsBase64 (fst (generateScene s)) = uploadedFileAsBase64 s.
Proof.
  unfold generateScene.
  destruct (uploadedFile s) as [file|] eqn:Hf; [|now split].
  destruct (uploadedFileAsBase64 s) as [[|c b]|] eqn:Hb; now split.
Qed.

Lemma generateScene_resume_frame (outcome : Settled) (s : State) :
  uploadedFile (generateScene_resume outcome s) = uploadedFile s /\
  uploadedFileAsBase64 (generateScene_resume outcome s) =
    uploadedFileAsBase64 s.
Proof.
  unfold generateScene_resume.
  destruct outcome as [response|reason]; cbn [try_block]; [|now split].
  destruct (response_parts response) as [e|ps]; [now split|].
  pose proof (scan_parts_frame ps s) as (F1 & F2 & _).
  destruct (scan_parts ps s) as [s1 [|]]; cbn [fst] in *; now split.
Qed.

Lemma generateScene_resume_effects (outcome : Settled) (s : State) :
  effects (generateScene_resume outcome s) =
  (effects s ++
   match thrown_by outcome with
   | Some error =>
       [ConsoleError "Error generating image:" error;
        Alert ("An error occurred: " ++ message_of error)]
   | None => []
   end)%list.
Proof.
  rewrite <- (try_block_thrown outcome s). unfold generateScene_resume.
  destruct outcome as [response|reason]; cbn [try_block].
  - destruct (response_parts response) as [e|ps].
    + cbn. now rewrite <- app_assoc.
    + pose proof (scan_parts_frame ps s) as (_ & _ & F).
      destruct (scan_parts ps s) as [s1 [|]]; cbn [fst snd] in *.
      * cbn. now rewrite F, app_nil_r.
      * cbn. now rewrite F, <- app_assoc.
  - cbn. now rewrite <- app_assoc.
Qed.

Lemma requests_well_formed_step (w : World) (e : Event) (w' : World) :
  requests_well_formed (page w) -> step w e = Some w' ->
  requests_well_formed (page w').
Proof.
  intros H S r. destruct e as [file|k ok| |k outcome]; cbn [step] in S.
  - unfold handleFileSelect in S.
    destruct file as [f|]; [destruct (startsWith "image/" (type f))|];
      injection S as <-; cbn; intros I; try (now apply H);
      apply in_app_or in I as [I|[I|[]]]; try discriminate; now apply H.
  - destruct (nth_error (reading w) k) as [f|]; [|discriminate].
    injection S as <-. cbn [page].
    unfold handleFileSelect_resume.
    destruct (fileToGenerativePart f _); [cbn|]; apply H.
  - destruct (generateBtn_disabled (dom (page w))); [discriminate|].
    destruct (generateScene (page w)) as [s1 sent] eqn:G.
    injection S as <-. cbn [page]. destruct sent as [r0|].
    + destruct (generateScene_sent_inv _ _ _ G) as (file & c & b & Hf & Hb & ->).
      destruct (generateScene_sent _ file c b Hf Hb) as (loading & G' & _ & _ & He & _).
      rewrite G' in G. injection G as <-. cbn [perform effects]. rewrite He.
      intros I. apply in_app_or in I as [I|[I|[]]]; [now apply H|].
      injection I as <-. now exists (type file), (String c b).
    + assert (N : snd (generateScene (page w)) = None) by now rewrite G.
      rewrite (generateScene_refused _ N) in G. injection G as <-.
      cbn. intros I. apply in_app_or in I as [I|[I|[]]]; [now apply H|discriminate].
  - destruct (nth_error (inflight w) k); [|discriminate].
    injection S as <-. cbn [page]. rewrite generateScene_resume_effects.
    intros I. apply in_app_or in I as [I|I]; [now apply H|].
    destruct (thrown_by outcome); [|destruct I].
    destruct I as [I|[I|[]]]; discriminate.
Qed.

(** C9: the request an attempt sends has exactly two parts, in this order: an
    inline-data part with the media type of the selected file and the stored
    encoding as payload, then a text part with the constant [PROMPT].  It is
    the one effect of the attempt's first half, and in every run from the
    initial page all requests sent so far have that shape, with the same
    prompt. *)
Theorem request_is_image_then_prompt (s s1 : State) (request : Request) :
  generateScene s = (s1, Some request) ->
  (exists file payload,
     uploadedFile s = Some file /\
     uploadedFileAsBase64 s = Some payload /\
     contents request = request_parts (type file) payload) /\
  effects s1 = (effects s ++ [GenerateContent request])%list /\
  (forall es w,
     run initial_world es = Some w -> page w = s ->
     requests_well_formed s1).
Proof.
  intros E.
  destruct (generateScene_sent_inv s s1 request E) as (file & c & b & Hf & Hb & ->).
  destruct (generateScene_sent s file c b Hf Hb) as (loading & G & _ & _ & He & _).
  rewrite G in E. injection E as <-.
  split; [|split].
  - now exists file, (String c b).
  - cbn [perform effects]. now rewrite He.
  - intros es w R <- r. cbn [perform effects]. rewrite He.
    intros I. apply in_app_or in I as [I|[I|[]]].
    + revert r I.
      apply (run_invariant (fun w => requests_well_formed (page w))
               requests_well_formed_step es initial_world w); [|exact R].
      intros r [].
    + injection I as <-. now exists (type file), (String c b).
Qed.

Lemma request_is_image_then_prompt_witness :
  contents (build_request cat_png "iVBORw==") =
    request_parts "image/png" "iVBORw==" /\
  effects (fst (generateScene ready_state)) =
    [GenerateContent (build_request cat_png "iVBORw==")].
Proof.
  destruct (request_is_image_then_prompt ready_state
              (fst (generateScene ready_state))
              (build_request cat_png "iVBORw==") eq_refl)
    as ((file & payload & Hf & Hb & Hc) & He & _).
  split; [reflexivity|exact He].
Defined.

(** C10: neither half of a generation attempt writes [uploadedFile] or
    [uploadedFileAsBase64]: after the guard fails, after the request is sent,
    and after the call settles, fulfilled or rejected, both are what they
    were; the same holds for the tasks of the event loop that run them. *)
Theorem generation_keeps_selection (s : State) (outcome : Settled) :
  (uploadedFile (fst (generateScene s)) = uploadedFile s /\
   uploadedFileAsBase64 (fst (generateScene s)) = uploadedFileAsBase64 s) /\
  (uploadedFile (generateScene_resume outcome s) = uploadedFile s /\
   uploadedFileAsBase64 (generateScene_resume outcome s) =
     uploadedFileAsBase64 s) /\
  (forall w w' e,
     page w = s ->
     (e = Click \/ exists k o, e = Settle k o) ->
     step w e = Some w' ->
     uploadedFile (page w') = uploadedFile s /\
     uploadedFileAsBase64 (page w') = uploadedFileAsBase64 s).
Proof.
  split; [apply generateScene_frame|].
  split; [apply generateScene_resume_frame|].
  intros w w' e <- [->|(k & o & ->)] S; cbn [step] in S.
  - destruct (generateBtn_disabled (dom (page w))); [discriminate|].
    pose proof (generateScene_frame (page w)) as F.
    destruct (generateScene (page w)) as [s1 sent]. injection S as <-. exact F.
  - destruct (nth_error (inflight w) k); [|discriminate].
    injection S as <-. apply generateScene_resume_frame.
Qed.

(** ** Failures of an attempt *)

Lemma generateScene_resume_failed (outcome : Settled) (error : Thrown)
  (s : State) :
  thrown_by outcome = Some error ->
  generateScene_resume outcome s =
    with_dom (setLoading false) (catch_block error s).
Proof.
  intros H. unfold generateScene_resume.
  now rewrite (try_block_failed outcome s error H).
Qed.

(** A hidden result image stays hidden through every task but a call that
    settles with an image. *)
Lemma result_image_stays_hidden (w : World) (e : Event) (w' : World) :
  no_success [e] = true ->
  resultImage_hidden (dom (page w)) = true ->
  step w e = Some w' ->
  resultImage_hidden (dom (page w')) = true.
Proof.
  intros N H S. destruct e as [file|k ok| |k outcome]; cbn [step] in S.
  - unfold handleFileSelect in S.
    destruct file as [f|]; [destruct (startsWith "image/" (type f))|];
      injection S as <-; exact H.
  - destruct (nth_error (reading w) k) as [f|]; [|discriminate].
    injection S as <-. cbn [page]. unfold handleFileSelect_resume.
    destruct (fileToGenerativePart f _); exact H.
  - destruct (generateBtn_disabled (dom (page w))); [discriminate|].
    unfold generateScene in S.
    destruct (uploadedFile (page w)) as [file|];
      [destruct (uploadedFileAsBase64 (page w)) as [[|c b]|]|];
      injection S as <-; try exact H; reflexivity.
  - destruct (nth_error (inflight w) k); [|discriminate].
    injection S as <-. cbn [page].
    cbn [no_success forallb] in N.
    destruct (thrown_by outcome) as [error|] eqn:T; [|discriminate].
    rewrite (generateScene_resume_failed outcome error _ T). exact H.
Qed.

Lemma result_image_stays_hidden_run (es : list Event) (w w' : World) :
  no_success es = true ->
  resultImage_hidden (dom (page w)) = true ->
  run w es = Some w' ->
  resultImage_hidden (dom (page w')) = true.
Proof.
  revert w. induction es as [|e es IH]; intros w N H; cbn [run].
  - intros E. now injection E as <-.
  - cbn [no_success forallb] in N. apply andb_true_iff in N as [Ne Nes].
    destruct (step w e) as [w1|] eqn:S; [|discriminate].
    apply IH; [exact Nes|].
    apply (result_image_stays_hidden w e w1); [|exact H|exact S].
    cbn [no_success forallb]. now rewrite Ne.
Qed.

(** Whenever a call settles in failure (rejected, or
    fulfilled without an image part in its first candidate), the error is
    caught: it is logged, an alert "An error occurred: " followed by the
    error's message is shown, the placeholder of the result panel is shown
    and the view is Idle.  The result image itself is left as it was; it is
    hidden if no call has settled with an image since the attempt started. *)
Theorem failure_is_alerted (outcome : Settled) (error : Thrown) (s : State) :
  thrown_by outcome = Some error ->
  let s' := generateScene_resume outcome s in
  effects s' =
    (effects s ++
     [ConsoleError "Error generating image:" error;
      Alert ("An error occurred: " ++ message_of error)])%list /\
  resultPlaceholder_hidden (dom s') = false /\
  resultImage_hidden (dom s') = resultImage_hidden (dom s) /\
  Idle (dom s') /\
  (forall w0 w1 request es w2 k w3,
     snd (generateScene (page w0)) = Some request ->
     step w0 Click = Some w1 ->
     run w1 es = Some w2 ->
     no_success es = true ->
     page w2 = s ->
     step w2 (Settle k outcome) = Some w3 ->
     resultImage_hidden (dom (page w3)) = true /\
     resultPlaceholder_hidden (dom (page w3)) = false).
Proof.
  intros T s'. subst s'.
  rewrite generateScene_resume_effects, T.
  rewrite (generateScene_resume_failed outcome error s T).
  split; [reflexivity|]. split; [reflexivity|]. split; [reflexivity|].
  split; [now repeat split|].
  intros w0 w1 request es w2 k w3 G S0 R N P S3.
  assert (H1 : resultImage_hidden (dom (page w1)) = true).
  { cbn [step] in S0.
    destruct (generateBtn_disabled (dom (page w0))); [discriminate|].
    destruct (generateScene (page w0)) as [s1 sent] eqn:E.
    cbn [snd] in G. subst sent. injection S0 as <-. cbn [page].
    destruct (generateScene_sent_inv _ _ _ E) as (file & c & b & Hf & Hb & ->).
    destruct (generateScene_sent _ file c b Hf Hb)
      as (loading & G' & _ & _ & _ & _ & _ & _ & Hh & _).
    rewrite G' in E. injection E as <-. exact Hh. }
  pose proof (result_image_stays_hidden_run es w1 w2 N H1 R) as H2.
  cbn [step] in S3. destruct (nth_error (inflight w2) k); [|discriminate].
  injection S3 as <-. cbn [page].
  rewrite (generateScene_resume_failed outcome error _ T).
  split; [exact H2|reflexivity].
Qed.

Lemma failure_is_alerted_witness :
  let waiting := fst (generateScene ready_state) in
  let s' := generateScene_resume quota_exceeded waiting in
  effects s' =
    [GenerateContent (build_request cat_png "iVBORw==");
     ConsoleError "Error generating image:"
       (ErrorObject PlainError "quota exceeded");
     Alert "An error occurred: quota exceeded"] /\
  resultPlaceholder_hidden (dom s') = false /\
  resultImage_hidden (dom s') = true.
Proof.
  intros waiting s'.
  destruct (failure_is_alerted quota_exceeded
              (ErrorObject PlainError "quota exceeded") waiting eq_refl)
    as (E & P & H & _).
  split; [exact E|]. split; [exact P|exact H].
Defined.

(** C6, evaluated on the run where the page breaks it: two attempts overlap
    (the trigger, disabled by [setLoading true], is re-enabled by a new
    selection while the first call is pending); the first
    call settles with an image, then the second is rejected with "quota
    exceeded": the alert is shown and so is the placeholder, but the image of
    the first call is still displayed. *)
Lemma stale_image_after_failure :
  thrown_by quota_exceeded = Some (ErrorObject PlainError "quota exceeded") /\
  exists w,
    run initial_world overlapping_attempts = Some w /\
    last (effects (page w)) (Alert "") =
      Alert "An error occurred: quota exceeded" /\
    resultPlaceholder_hidden (dom (page w)) = false /\
    resultImage_hidden (dom (page w)) = false /\
    resultImage_src (dom (page w)) = Some "data:image/png;base64,iVBORw0KGgo=".
Proof.
  split; [reflexivity|].
  eexists. split; [vm_compute; reflexivity|].
  cbn. repeat split.
Qed.

(** ** The stored encoding *)

Lemma fileToGenerativePart_data (file : File) :
  fileToGenerativePart file (Some (readAsDataURL file)) =
  Some {| part_mimeType := type file; part_data := encoding_of file |}.
Proof. reflexivity. Qed.

(** The encoding of a file whose media type has no comma decodes to the
    file's bytes. *)
Lemma encoding_round_trips (file : File) :
  lacks ","%char (type file) = true ->
  exists payload,
    encoding_of file = Some payload /\
    Base64.decode payload = Some (bytes file).
Proof.
  intros H. exists (Base64.encode (bytes file)). split.
  - unfold encoding_of. now rewrite (fileToGenerativePart_loaded file H).
  - apply Base64Facts.decode_encode.
Qed.

Lemma step_ReadEnd_ok (w : World) (k : nat) (f : File) :
  nth_error (reading w) k = Some f ->
  step w (ReadEnd k true) =
    Some {| page := set_uploadedFileAsBase64 (encoding_of f) (page w);
            reading := remove_at k (reading w);
            inflight := inflight w |}.
Proof. intros N. unfold step. rewrite N. reflexivity. Qed.

Lemma in_step_step (w : World) (e : Event) (w' : World) :
  in_step w -> orderly w e = true -> step w e = Some w' -> in_step w'.
Proof.
  intros I O S. destruct e as [file|k ok| |k outcome].
  - cbn [step orderly] in *.
    destruct (reading w) as [|f0 pending] eqn:R; [|discriminate].
    destruct I as [[_ I]|(f & Rf & _)]; [|congruence].
    unfold handleFileSelect in S.
    destruct file as [f|]; [destruct (startsWith "image/" (type f))|];
      injection S as <-.
    + right. exists f. now split.
    + left. now split.
    + left. now split.
  - cbn [orderly] in O. subst ok.
    destruct (nth_error (reading w) k) as [f|] eqn:N.
    2:{ unfold step in S. rewrite N in S. discriminate. }
    rewrite (step_ReadEnd_ok w k f N) in S. injection S as <-.
    destruct I as [[R _]|(f0 & R & U)].
    + rewrite R in N. destruct k; discriminate.
    + rewrite R in N. destruct k as [|k]; [|destruct k; discriminate].
      cbn [nth_error] in N. injection N as ->.
      left. cbn [reading page]. rewrite R. split; [reflexivity|].
      cbn [set_uploadedFileAsBase64 uploadedFile uploadedFileAsBase64].
      rewrite U. intros file E. now injection E as <-.
  - cbn [step] in S.
    destruct (generateBtn_disabled (dom (page w))); [discriminate|].
    pose proof (generateScene_frame (page w)) as [F1 F2].
    destruct (generateScene (page w)) as [s1 sent]. injection S as <-.
    cbn [fst] in *. unfold in_step. cbn [reading page]. now rewrite F1, F2.
  - cbn [step] in S.
    destruct (nth_error (inflight w) k); [|discriminate].
    pose proof (generateScene_resume_frame outcome (page w)) as [F1 F2].
    injection S as <-. unfold in_step. cbn [reading page]. now rewrite F1, F2.
Qed.

Lemma in_step_run (es : list Event) (w w' : World) :
  in_step w -> run_orderly w es = Some w' -> in_step w'.
Proof.
  revert w. induction es as [|e es IH]; intros w I; cbn [run_orderly].
  - intros E. now injection E as <-.
  - destruct (orderly w e) eqn:O; [|discriminate].
    destruct (step w e) as [w1|] eqn:S; [|discriminate].
    apply IH. exact (in_step_step w e w1 I O S).
Qed.

(** In a run from the initial page in which a file is
    selected only while no read is pending and no read fails, whenever no read
    is pending the stored encoding is the encoder's output for the selected
    file, so a click that gets past the guard consumes the encoding of the
    current selection.  (While the read of a newly selected file is pending,
    the stored encoding is the previous one.) *)
Theorem encoding_current_when_no_read_pending (es : list Event) (w : World) :
  run_orderly initial_world es = Some w ->
  reading w = [] ->
  run initial_world es = Some w /\
  (forall file,
     uploadedFile (page w) = Some file ->
     uploadedFileAsBase64 (page w) = encoding_of file) /\
  encoded_consistent_at_use (page w).
Proof.
  intros R E. split; [now apply run_orderly_run|].
  assert (I : in_step w).
  { apply (in_step_run es initial_world w); [|exact R].
    left. split; [reflexivity|]. discriminate. }
  destruct I as [[_ I]|(f & Rf & _)]; [|rewrite E in Rf; discriminate].
  split; [exact I|]. intros file request U _. now apply I.
Qed.

Lemma encoding_current_when_no_read_pending_witness :
  exists w,
    run initial_world [Select (Some cat_png); ReadEnd 0 true] = Some w /\
    uploadedFile (page w) = Some cat_png /\
    uploadedFileAsBase64 (page w) = Some "iVBORw==".
Proof.
  eexists.
  assert (R : run_orderly initial_world [Select (Some cat_png); ReadEnd 0 true] =
              Some {| page := ready_state; reading := []; inflight := [] |})
    by reflexivity.
  destruct (encoding_current_when_no_read_pending _ _ R eq_refl) as (H & I & _).
  split; [exact H|]. split; [reflexivity|].
  exact (I cat_png eq_refl).
Defined.

(** C2, evaluated on the run where the page breaks it: cat.png is selected
    and encoded, then dog.jpg is selected; before its read ends the trigger is
    enabled and a click gets past the guard, which finds the encoding of
    cat.png still stored: the request carries the media type of dog.jpg with
    the payload of cat.png. *)
Lemma stale_encoding_is_consumed :
  exists w,
    run initial_world reselect_pending = Some w /\
    uploadedFile (page w) = Some dog_jpeg /\
    generateBtn_disabled (dom (page w)) = false /\
    snd (generateScene (page w)) = Some (build_request dog_jpeg "iVBORw==") /\
    encoding_of dog_jpeg = Some "/9j/" /\
    ~ encoded_consistent_at_use (page w).
Proof.
  eexists. split; [vm_compute; reflexivity|].
  split; [reflexivity|]. split; [reflexivity|]. split; [reflexivity|].
  split; [reflexivity|].
  intros H.
  specialize (H dog_jpeg (build_request dog_jpeg "iVBORw==") eq_refl eq_refl).
  vm_compute in H. discriminate H.
Qed.

(** C8: for every valid image file (its media type starts with "image/"
    and, as the media types that a picker or a drop delivers, has no comma),
    once the file is selected and its read has ended, decoding the stored
    encoding yields exactly the bytes of the file, and the encoder reports the
    file's declared media type. *)
Theorem encoded_image_round_trips (f : File) (w : World) :
  startsWith "image/" (type f) = true ->
  lacks ","%char (type f) = true ->
  exists w' payload,
    run w [Select (Some f); ReadEnd (List.length (reading w)) true] = Some w' /\
    uploadedFile (page w') = Some f /\
    uploadedFileAsBase64 (page w') = Some payload /\
    Base64.decode payload = Some (bytes f) /\
    fileToGenerativePart f (Some (readAsDataURL f)) =
      Some {| part_mimeType := type f; part_data := Some payload |}.
Proof.
  intros Im C.
  assert (E : encoding_of f = Some (Base64.encode (bytes f))).
  { unfold encoding_of. now rewrite (fileToGenerativePart_loaded f C). }
  eexists. exists (Base64.encode (bytes f)). split.
  - cbn [run]. unfold step at 1.
    unfold handleFileSelect. rewrite Im.
    rewrite step_ReadEnd_ok with (f := f).
    + rewrite E. reflexivity.
    + cbn [reading]. rewrite nth_error_app2, Nat.sub_diag by apply Nat.le_refl.
      reflexivity.
  - cbn. split; [reflexivity|]. split; [reflexivity|].
    split; [apply Base64Facts.decode_encode|].
    now apply fileToGenerativePart_loaded.
Qed.

Lemma encoded_image_round_trips_witness :
  exists w',
    run initial_world [Select (Some cat_png); ReadEnd 0 true] = Some w' /\
    uploadedFileAsBase64 (page w') = Some "iVBORw==" /\
    Base64.decode "iVBORw==" = Some (bytes cat_png).
Proof.
  destruct (encoded_image_round_trips cat_png initial_world eq_refl eq_refl)
    as (w' & payload & R & _ & B & D & P).
  injection P as <-.
  exists w'. split; [exact R|]. split; [exact B|exact D].
Defined.

(** Why the media type must have no comma: that of [comma_file] starts with
    "image/", its read succeeds, and what is stored as its encoding is the
    piece between the first two commas of the data URL, "y;base64", which is
    not base64 text and does not decode to the file's bytes. *)
Lemma comma_in_media_type_breaks_encoding :
  startsWith "image/" (type comma_file) = true /\
  readAsDataURL comma_file = "data:image/x,y;base64,AQ==" /\
  fileToGenerativePart comma_file (Some (readAsDataURL comma_file)) =
    Some {| part_mimeType := "image/x,y"; part_data := Some "y;base64" |} /\
  (exists w,
     run initial_world [Select (Some comma_file); ReadEnd 0 true] = Some w /\
     uploadedFile (page w) = Some comma_file /\
     uploadedFileAsBase64 (page w) = Some "y;base64") /\
  Base64.decode "y;base64" <> Some (bytes comma_file) /\
  Base64.decode "AQ==" = Some (bytes comma_file).
Proof.
  split; [reflexivity|]. split; [reflexivity|]. split; [reflexivity|].
  split.
  - eexists. split; [vm_compute; reflexivity|]. split; reflexivity.
  - split; [vm_compute; discriminate|reflexivity].
Qed.

(** * Further properties of the page *)

(** ** The tasks, case by case *)

Lemma step_Select (w : World) (file : option File) :
  step w (Select file) = Some (select_task file w).
Proof.
  unfold step, select_task. now destruct (handleFileSelect file (page w)).
Qed.

Lemma select_task_accepted (f : File) (w : World) :
  is_image f = true ->
  select_task (Some f) w =
    {| page := with_dom (show_preview f) (set_uploadedFile f (page w));
       reading := reading w ++ [f];
       inflight := inflight w |}.
Proof.
  unfold is_image, select_task, handleFileSelect. intros H. now rewrite H.
Qed.

Lemma select_task_rejected (file : option File) (w : World) :
  rejected file = true ->
  select_task file w =
    {| page := perform (Alert "Please select a valid image file.") (page w);
       reading := reading w;
       inflight := inflight w |}.
Proof.
  intros H. unfold select_task.
  now rewrite (handleFileSelect_rejected file (page w) H).
Qed.

Lemma rejected_or_image (file : option File) :
  rejected file = true \/ exists f, file = Some f /\ is_image f = true.
Proof.
  destruct file as [f|]; [|now left]. unfold rejected, is_image.
  destruct (startsWith "image/" (type f)) eqn:E.
  - right. exists f. now rewrite E.
  - now left.
Qed.

Lemma generateScene_cases (s : State) :
  (exists file c b,
     uploadedFile s = Some file /\
     uploadedFileAsBase64 s = Some (String c b) /\
     generateScene s =
       (perform (GenerateContent (build_request file (String c b)))
          (with_dom enter_loading s),
        Some (build_request file (String c b)))) \/
  ((uploadedFile s = None \/ uploadedFileAsBase64 s = None \/
    uploadedFileAsBase64 s = Some EmptyString) /\
   generateScene s = (perform (Alert "Please upload an image first.") s, None)).
Proof.
  unfold generateScene.
  destruct (uploadedFile s) as [file|]; [|right; split; [now left|reflexivity]].
  destruct (uploadedFileAsBase64 s) as [[|c b]|].
  - right. split; [right; now right|reflexivity].
  - left. now exists file, c, b.
  - right. split; [right; now left|reflexivity].
Qed.

Lemma scan_parts_cases (ps : list Part) (s : State) :
  scan_parts ps s = (s, false) \/
  exists blob, scan_parts ps s = (with_dom (show_result blob) s, true).
Proof.
  induction ps as [|p ps IH]; cbn [scan_parts]; [now left|].
  destruct (inlineData p) as [blob|]; [right; now exists blob|exact IH].
Qed.

Lemma generateScene_resume_cases (outcome : Settled) (s : State) :
  (exists error,
     thrown_by outcome = Some error /\
     generateScene_resume outcome s =
       with_dom (setLoading false) (catch_block error s)) \/
  (exists blob,
     thrown_by outcome = None /\
     generateScene_resume outcome s =
       with_dom (setLoading false) (with_dom (show_result blob) s)).
Proof.
  destruct (thrown_by outcome) as [error|] eqn:T.
  - left. exists error. split; [reflexivity|].
    now apply generateScene_resume_failed.
  - right. rewrite <- (try_block_thrown outcome s) in T.
    unfold generateScene_resume, try_block in *.
    destruct outcome as [response|reason]; [|discriminate].
    destruct (response_parts response) as [e|ps]; [discriminate|].
    destruct (scan_parts_cases ps s) as [F|[blob F]]; rewrite F in *;
      [discriminate|].
    now exists blob.
Qed.

(** Every task, with what it does to the world. *)
Lemma step_cases (w : World) (e : Event) (w' : World) :
  step w e = Some w' ->
  (exists file, e = Select file /\ w' = select_task file w) \/
  (exists k ok f,
     e = ReadEnd k ok /\ nth_error (reading w) k = Some f /\
     w' = {| page :=
               handleFileSelect_resume
                 (fileToGenerativePart f
                    (if ok then Some (readAsDataURL f) else None))
                 (page w);
             reading := remove_at k (reading w);
             inflight := inflight w |}) \/
  (e = Click /\ generateBtn_disabled (dom (page w)) = false /\
   w' = {| page := fst (generateScene (page w));
           reading := reading w;
           inflight :=
             match snd (generateScene (page w)) with
             | Some r => (inflight w ++ [r])%list
             | None => inflight w
             end |}) \/
  (exists k outcome r,
     e = Settle k outcome /\ nth_error (inflight w) k = Some r /\
     w' = {| page := generateScene_resume outcome (page w);
             reading := reading w;
             inflight := remove_at k (inflight w) |}).
Proof.
  intros S. destruct e as [file|k ok| |k outcome].
  - left. exists file. rewrite step_Select in S. now injection S as <-.
  - right; left. unfold step in S.
    destruct (nth_error (reading w) k) as [f|] eqn:N; [|discriminate].
    exists k, ok, f. now injection S as <-.
  - right; right; left. cbn [step] in S.
    destruct (generateBtn_disabled (dom (page w))); [discriminate|].
    destruct (generateScene (page w)) as [s1 sent]. now injection S as <-.
  - right; right; right. cbn [step] in S.
    destruct (nth_error (inflight w) k) as [r|] eqn:N; [|discriminate].
    exists k, outcome, r. now injection S as <-.
Qed.

Lemma in_remove_at {A : Type} (k : nat) (l : list A) (x : A) :
  In x (remove_at k l) -> In x l.
Proof.
  revert k. induction l as [|y l IH]; intros k.
  - now destruct k.
  - destruct k as [|k]; cbn [remove_at]; [now right|].
    intros [->|H]; [now left|right; now apply (IH k)].
Qed.

Lemma nth_error_not_nil {A : Type} (k : nat) (l : list A) (x : A) :
  nth_error l k = Some x -> l <> [].
Proof. intros H ->. destruct k; discriminate. Qed.

Lemma handleFileSelect_resume_cases (settled : option GenerativePart)
  (s : State) :
  handleFileSelect_resume settled s = s \/
  exists v, handleFileSelect_resume settled s = set_uploadedFileAsBase64 v s.
Proof.
  destruct settled as [part|]; [right; now exists (part_data part)|now left].
Qed.

Ltac step_inv S :=
  apply step_cases in S;
  destruct S as [(?file & -> & ->)
                |[(?k & ?ok & ?f & -> & ?N & ->)
                 |[(-> & ?D & ->)|(?k & ?outcome & ?r & -> & ?N & ->)]]].

Ltac in_snoc I :=
  apply in_app_or in I; destruct I as [I|[I|[]]].

(** ** Invariants of the event loop *)

Lemma only_images_step (w : World) (e : Event) (w' : World) :
  only_images w -> step w e = Some w' -> only_images w'.
Proof.
  intros (U & R & F & G) S. step_inv S.
  - destruct (rejected_or_image file) as [Rj|(f & -> & Im)].
    + rewrite (select_task_rejected file w Rj). repeat split; cbn; auto.
      intros r I. in_snoc I; [auto|discriminate].
    + rewrite (select_task_accepted f w Im). repeat split; cbn; auto.
      * intros file E. now injection E as <-.
      * intros file I. in_snoc I; [auto|now subst].
  - assert (P : uploadedFile (handleFileSelect_resume
                  (fileToGenerativePart f (if ok then Some (readAsDataURL f) else None))
                  (page w)) = uploadedFile (page w) /\
                effects (handleFileSelect_resume
                  (fileToGenerativePart f (if ok then Some (readAsDataURL f) else None))
                  (page w)) = effects (page w)).
    { destruct (handleFileSelect_resume_cases
                  (fileToGenerativePart f (if ok then Some (readAsDataURL f) else None))
                  (page w)) as [->|[v ->]]; now split. }
    destruct P as [P1 P2]. repeat split; cbn [page reading inflight].
    + now rewrite P1.
    + intros file I. apply R. now apply in_remove_at in I.
    + exact F.
    + now rewrite P2.
  - destruct (generateScene_cases (page w))
      as [(file & c & b & Hf & Hb & E)|(_ & E)]; rewrite E; cbn [fst snd].
    + assert (Q : image_request (build_request file (String c b))).
      { exists file, c, b. split; [now apply U|reflexivity]. }
      repeat split; cbn; auto.
      * intros r I. in_snoc I; [auto|now subst].
      * intros r I. in_snoc I; [auto|]. injection I as <-. exact Q.
    + repeat split; cbn; auto.
      intros r I. in_snoc I; [auto|discriminate].
  - assert (P : uploadedFile (generateScene_resume outcome (page w)) =
                uploadedFile (page w)) by apply generateScene_resume_frame.
    repeat split; cbn [page reading inflight].
    + now rewrite P.
    + exact R.
    + intros r0 I. apply F. now apply in_remove_at in I.
    + rewrite generateScene_resume_effects. intros r0 I.
      apply in_app_or in I as [I|I]; [auto|].
      destruct (thrown_by outcome); [|destruct I].
      destruct I as [I|[I|[]]]; discriminate.
Qed.

Lemma trigger_needs_file_step (w : World) (e : Event) (w' : World) :
  trigger_needs_file w -> step w e = Some w' -> trigger_needs_file w'.
Proof.
  unfold trigger_needs_file. intros H S. step_inv S.
  - destruct (rejected_or_image file) as [Rj|(f & -> & Im)].
    + rewrite (select_task_rejected file w Rj). exact H.
    + rewrite (select_task_accepted f w Im). cbn. discriminate.
  - cbn [page inflight].
    destruct (handleFileSelect_resume_cases
                (fileToGenerativePart f (if ok then Some (readAsDataURL f) else None))
                (page w)) as [->|[v ->]]; exact H.
  - intros _. cbn [page]. destruct (generateScene_frame (page w)) as [-> _].
    apply H. now left.
  - intros _. cbn [page].
    destruct (generateScene_resume_frame outcome (page w)) as [-> _].
    apply H. right. exact (nth_error_not_nil k _ r N).
Qed.

Lemma loader_in_step_step (w : World) (e : Event) (w' : World) :
  loader_in_step w -> step w e = Some w' -> loader_in_step w'.
Proof.
  unfold loader_in_step. intros H S. step_inv S.
  - destruct (rejected_or_image file) as [Rj|(f & -> & Im)].
    + rewrite (select_task_rejected file w Rj). exact H.
    + rewrite (select_task_accepted f w Im). exact H.
  - cbn [page inflight].
    destruct (handleFileSelect_resume_cases
                (fileToGenerativePart f (if ok then Some (readAsDataURL f) else None))
                (page w)) as [->|[v ->]]; exact H.
  - destruct (generateScene_cases (page w))
      as [(file & c & b & Hf & Hb & E)|(_ & E)]; rewrite E; cbn [fst snd].
    + left. cbn. repeat split. now destruct (inflight w).
    + exact H.
  - right. destruct (generateScene_resume_idle outcome (page w)) as (L & _ & T).
    now split.
Qed.

Lemma result_region_step (w : World) (e : Event) (w' : World) :
  result_region_filled (dom (page w)) /\ shown_image_has_source (dom (page w)) ->
  step w e = Some w' ->
  result_region_filled (dom (page w')) /\ shown_image_has_source (dom (page w')).
Proof.
  unfold result_region_filled, shown_image_has_source. intros H S. step_inv S.
  - destruct (rejected_or_image file) as [Rj|(f & -> & Im)].
    + rewrite (select_task_rejected file w Rj). exact H.
    + rewrite (select_task_accepted f w Im). exact H.
  - cbn [page].
    destruct (handleFileSelect_resume_cases
                (fileToGenerativePart f (if ok then Some (readAsDataURL f) else None))
                (page w)) as [->|[v ->]]; exact H.
  - destruct (generateScene_cases (page w))
      as [(file & c & b & Hf & Hb & E)|(_ & E)]; rewrite E; cbn [fst page].
    + split; [now left|]. cbn. discriminate.
    + exact H.
  - cbn [page].
    destruct (generateScene_resume_cases outcome (page w))
      as [(error & _ & ->)|(blob & _ & ->)].
    + split; [right; now left|]. exact (proj2 H).
    + split; [right; now right|]. intros _. now exists blob.
Qed.

(** X1: in every run from the initial page, only image files are stored,
    read or sent: the selected file and every file whose read is pending have
    a media type that starts with "image/", and every request, pending or
    sent, was built from such a file and a non-empty payload. *)
Theorem only_image_files_are_used (es : list Event) (w : World) :
  run initial_world es = Some w ->
  (forall file, uploadedFile (page w) = Some file ->
                startsWith "image/" (type file) = true) /\
  (forall file, In file (reading w) ->
                startsWith "image/" (type file) = true) /\
  (forall r, In r (inflight w) \/ In (GenerateContent r) (effects (page w)) ->
     exists file c b,
       startsWith "image/" (type file) = true /\
       contents r = request_parts (type file) (String c b)).
Proof.
  intros R.
  assert (I : only_images w).
  { apply (run_invariant only_images only_images_step es initial_world w);
      [|exact R].
    repeat split; cbn; try discriminate; intros ? []. }
  destruct I as (U & P & F & G). split; [exact U|]. split; [exact P|].
  intros r [I|I]; [apply F in I|apply G in I];
    destruct I as (file & c & b & Im & ->); now exists file, c, b.
Qed.

Lemma only_image_files_are_used_witness :
  exists w,
    run initial_world overlapping_attempts = Some w /\
    forall file, uploadedFile (page w) = Some file ->
                 startsWith "image/" (type file) = true.
Proof.
  destruct (run initial_world overlapping_attempts) as [w|] eqn:R;
    [|vm_compute in R; discriminate R].
  exists w. split; [reflexivity|].
  exact (proj1 (only_image_files_are_used overlapping_attempts w R)).
Defined.

(** X2: in every run from the initial page (whose trigger starts disabled),
    the trigger is enabled, or a call is pending, only when a file is
    selected. *)
Theorem trigger_enabled_only_with_file (es : list Event) (w : World) :
  run initial_world es = Some w ->
  generateBtn_disabled (dom (page w)) = false \/ inflight w <> [] ->
  exists file, uploadedFile (page w) = Some file.
Proof.
  intros R H.
  assert (I : trigger_needs_file w).
  { apply (run_invariant trigger_needs_file trigger_needs_file_step
             es initial_world w); [|exact R].
    intros [D|N]; [discriminate D|now contradiction N]. }
  specialize (I H). destruct (uploadedFile (page w)) as [file|];
    [now exists file|now contradiction I].
Qed.

Lemma trigger_enabled_only_with_file_witness :
  exists w file,
    run initial_world reselect_pending = Some w /\
    uploadedFile (page w) = Some file.
Proof.
  destruct (run initial_world reselect_pending) as [w|] eqn:R;
    [|vm_compute in R; discriminate R].
  assert (D : generateBtn_disabled (dom (page w)) = false).
  { vm_compute in R. injection R as <-. reflexivity. }
  destruct (trigger_enabled_only_with_file reselect_pending w R (or_introl D))
    as [file U].
  exists w, file. split; [reflexivity|exact U].
Defined.

(** X3: in every run from the initial page, the progress indicator is shown
    exactly when the trigger is labelled "Generating...", and then a call is
    pending; otherwise the label is "Generate Scene". *)
Theorem loader_shown_only_while_pending (es : list Event) (w : World) :
  run initial_world es = Some w ->
  (loader_hidden (dom (page w)) = false ->
   generateBtn_textContent (dom (page w)) = "Generating..." /\
   inflight w <> []) /\
  (loader_hidden (dom (page w)) = true ->
   generateBtn_textContent (dom (page w)) = "Generate Scene").
Proof.
  intros R.
  assert (I : loader_in_step w).
  { apply (run_invariant loader_in_step loader_in_step_step
             es initial_world w); [|exact R].
    right. now split. }
  destruct I as [(L & T & N)|(L & T)]; rewrite L; split; intros E;
    try discriminate E; auto.
Qed.

Lemma loader_shown_only_while_pending_witness :
  exists w,
    run initial_world [Select (Some cat_png); ReadEnd 0 true; Click] = Some w /\
    generateBtn_textContent (dom (page w)) = "Generating..." /\
    inflight w <> [].
Proof.
  destruct (run initial_world [Select (Some cat_png); ReadEnd 0 true; Click])
    as [w|] eqn:R; [|vm_compute in R; discriminate R].
  assert (L : loader_hidden (dom (page w)) = false).
  { vm_compute in R. injection R as <-. reflexivity. }
  exists w. split; [reflexivity|].
  exact (proj1 (loader_shown_only_while_pending _ w R) L).
Defined.

(** X4: in every run from the initial page, the result region is never
    blank: the progress indicator, the placeholder or the result image is
    shown. *)
Theorem result_region_never_blank (es : list Event) (w : World) :
  run initial_world es = Some w ->
  loader_hidden (dom (page w)) = false \/
  resultPlaceholder_hidden (dom (page w)) = false \/
  resultImage_hidden (dom (page w)) = false.
Proof.
  intros R.
  apply (run_invariant
           (fun w => result_region_filled (dom (page w)) /\
                     shown_image_has_source (dom (page w)))
           result_region_step es initial_world w); [|exact R].
  split; [right; now left|]. intros H. discriminate H.
Qed.

Lemma result_region_never_blank_witness :
  exists w,
    run initial_world overlapping_attempts = Some w /\
    (loader_hidden (dom (page w)) = false \/
     resultPlaceholder_hidden (dom (page w)) = false \/
     resultImage_hidden (dom (page w)) = false).
Proof.
  destruct (run initial_world overlapping_attempts) as [w|] eqn:R;
    [|vm_compute in R; discriminate R].
  exists w. split; [reflexivity|].
  exact (result_region_never_blank overlapping_attempts w R).
Defined.

(** ** Where the result image comes from *)

Lemma parts_split (ps : list Part) :
  (forall p, In p ps -> inlineData p = None) \/
  exists texts image rest blob,
    ps = (texts ++ image :: rest)%list /\
    (forall p, In p texts -> inlineData p = None) /\
    inlineData image = Some blob.
Proof.
  induction ps as [|p ps IH]; [left; intros p []|].
  destruct (inlineData p) as [blob|] eqn:E.
  - right. exists [], p, ps, blob. split; [reflexivity|].
    split; [intros q []|exact E].
  - destruct IH as [N|(texts & image & rest & blob & -> & T & I)].
    + left. intros q [<-|Q]; [exact E|now apply N].
    + right. exists (p :: texts), image, rest, blob. split; [reflexivity|].
      split; [|exact I]. intros q [<-|Q]; [exact E|now apply T].
Qed.

Lemma first_image_iff (response : GenerateContentResponse) :
  thrown_by (Fulfilled response) = None <->
  exists blob, first_image response blob.
Proof.
  unfold thrown_by, try_block, first_image. split.
  - destruct (response_parts response) as [e|ps] eqn:R; [discriminate|].
    destruct (parts_split ps) as [N|(texts & image & rest & blob & -> & T & I)].
    + rewrite (scan_parts_none ps _ N). discriminate.
    + intros _. apply response_parts_inr in R as [others R].
      now exists blob, texts, image, rest, others.
  - intros (blob & texts & image & rest & others & C & T & I).
    assert (R : response_parts response = inr (texts ++ image :: rest)%list)
      by (apply response_parts_inr; now exists others).
    rewrite R, (scan_parts_first texts image rest blob _ T I). reflexivity.
Qed.

Lemma resume_shows_first_image (response : GenerateContentResponse)
  (blob : Blob) (s : State) :
  first_image response blob ->
  generateScene_resume (Fulfilled response) s =
    with_dom (setLoading false) (with_dom (show_result blob) s).
Proof.
  intros (texts & image & rest & others & C & T & I).
  assert (R : response_parts response = inr (texts ++ image :: rest)%list)
    by (apply response_parts_inr; now exists others).
  unfold generateScene_resume, try_block.
  now rewrite R, (scan_parts_first texts image rest blob s T I).
Qed.

(** A task either is a call fulfilled with an image, and sets the source of
    the result image from it, or leaves the source alone and does not unhide
    the image. *)
Lemma result_source_step (w : World) (e : Event) (w' : World) :
  step w e = Some w' ->
  (exists k response blob,
     e = Settle k (Fulfilled response) /\ first_image response blob /\
     resultImage_src (dom (page w')) = Some (data_url blob)) \/
  (~ settles_with_image e /\
   resultImage_src (dom (page w')) = resultImage_src (dom (page w)) /\
   (resultImage_hidden (dom (page w')) = false ->
    resultImage_hidden (dom (page w)) = false)).
Proof.
  intros S. step_inv S.
  - right. split; [intros (k & r & b & E & _); discriminate E|].
    destruct (rejected_or_image file) as [Rj|(f & -> & Im)].
    + rewrite (select_task_rejected file w Rj). now split.
    + rewrite (select_task_accepted f w Im). now split.
  - right. split; [intros (k' & r & b & E & _); discriminate E|]. cbn [page].
    destruct (handleFileSelect_resume_cases
                (fileToGenerativePart f (if ok then Some (readAsDataURL f) else None))
                (page w)) as [->|[v ->]]; now split.
  - right. split; [intros (k & r & b & E & _); discriminate E|].
    destruct (generateScene_cases (page w))
      as [(file & c & b & Hf & Hb & E)|(_ & E)]; rewrite E; cbn [fst page].
    + split; [reflexivity|]. cbn. discriminate.
    + now split.
  - cbn [page]. destruct (thrown_by outcome) as [error|] eqn:T.
    + right. split.
      * intros (k' & response & blob & E & F). injection E as _ ->.
        assert (Ok : thrown_by (Fulfilled response) = None)
          by (apply first_image_iff; now exists blob).
        rewrite Ok in T. discriminate T.
      * rewrite (generateScene_resume_failed outcome error _ T). now split.
    + left. destruct outcome as [response|reason]; [|discriminate T].
      apply first_image_iff in T as [blob F].
      exists k, response, blob. split; [reflexivity|]. split; [exact F|].
      now rewrite (resume_shows_first_image response blob _ F).
Qed.

Lemma result_source_run (es : list Event) (w w' : World) :
  run w es = Some w' ->
  ((forall e, In e es -> ~ settles_with_image e) /\
   resultImage_src (dom (page w')) = resultImage_src (dom (page w)) /\
   (resultImage_hidden (dom (page w')) = false ->
    resultImage_hidden (dom (page w)) = false)) \/
  (exists es1 k response es2 blob,
     es = (es1 ++ Settle k (Fulfilled response) :: es2)%list /\
     first_image response blob /\
     (forall e, In e es2 -> ~ settles_with_image e) /\
     resultImage_src (dom (page w')) = Some (data_url blob)).
Proof.
  revert w. induction es as [|e es IH]; intros w; cbn [run].
  - intros E. injection E as <-. left. split; [intros e []|now split].
  - destruct (step w e) as [w1|] eqn:S; [|discriminate].
    intros R. destruct (IH w1 R) as [(N & Src & Hid)|
      (es1 & k & response & es2 & blob & -> & F & N & Src)].
    + destruct (result_source_step w e w1 S) as
        [(k & response & blob & -> & F & Src1)|(Ne & Src1 & Hid1)].
      * right. exists [], k, response, es, blob. split; [reflexivity|].
        split; [exact F|]. split; [exact N|]. now rewrite Src.
      * left. split; [intros e' [<-|I]; [exact Ne|now apply N]|].
        split; [now rewrite Src|]. intros H. now apply Hid1, Hid.
    + right. exists (e :: es1), k, response, es2, blob.
      split; [reflexivity|]. now repeat split.
Qed.

(** X5: in every run from the initial page, a result image that is shown
    comes from the last call of the run that was fulfilled with an image: its
    source is the data URL built from the media type and the payload of the
    first part with inline data of the first candidate of that call's
    response. *)
Theorem shown_result_has_data_url (es : list Event) (w : World) :
  run initial_world es = Some w ->
  resultImage_hidden (dom (page w)) = false ->
  exists es1 k response es2 texts image rest others blob,
    es = (es1 ++ Settle k (Fulfilled response) :: es2)%list /\
    candidates response =
      Some ({| content := Some {| parts := Some (texts ++ image :: rest)%list |} |}
            :: others) /\
    (forall p, In p texts -> inlineData p = None) /\
    inlineData image = Some blob /\
    (forall e, In e es2 -> ~ settles_with_image e) /\
    resultImage_src (dom (page w)) =
      Some ("data:" ++ mimeType blob ++ ";base64," ++ data blob).
Proof.
  intros R H.
  destruct (result_source_run es initial_world w R) as [(_ & _ & Hid)|
    (es1 & k & response & es2 & blob & E & F & N & Src)].
  - specialize (Hid H). discriminate Hid.
  - destruct F as (texts & image & rest & others & C & T & I).
    exists es1, k, response, es2, texts, image, rest, others, blob.
    now repeat split.
Qed.

Lemma shown_result_has_data_url_witness :
  exists w,
    run initial_world overlapping_attempts = Some w /\
    exists blob,
      inlineData (image_part "image/png" "iVBORw0KGgo=") = Some blob /\
      resultImage_src (dom (page w)) =
        Some ("data:" ++ mimeType blob ++ ";base64," ++ data blob).
Proof.
  destruct (run initial_world overlapping_attempts) as [w|] eqn:R;
    [|vm_compute in R; discriminate R].
  assert (H : resultImage_hidden (dom (page w)) = false).
  { vm_compute in R. injection R as <-. reflexivity. }
  destruct (shown_result_has_data_url overlapping_attempts w R H)
    as (es1 & k & response & es2 & texts & image & rest & others & blob &
        E & C & T & I & N & Src).
  exists w. split; [reflexivity|].
  assert (W : resultImage_src (dom (page w)) =
              Some "data:image/png;base64,iVBORw0KGgo=").
  { vm_compute in R. injection R as <-. reflexivity. }
  exists {| mimeType := "image/png"; data := "iVBORw0KGgo=" |}.
  split; [reflexivity|exact W].
Defined.

(** ** Where the stored encoding comes from *)

Lemma accepted_files_cons (e : Event) (es : list Event) :
  accepted_files (e :: es) = (accepted_files [e] ++ accepted_files es)%list.
Proof.
  destruct e as [[f|]|k ok| |k outcome]; cbn [accepted_files]; try reflexivity.
  now destruct (is_image f).
Qed.

Lemma encoding_from_step (w : World) (e : Event) (w' : World) :
  step w e = Some w' ->
  encoding_from (reading w ++ accepted_files [e])
    (uploadedFileAsBase64 (page w)) w'.
Proof.
  unfold encoding_from. intros S. step_inv S.
  - destruct (rejected_or_image file) as [Rj|(f & -> & Im)].
    + rewrite (select_task_rejected file w Rj). cbn [page reading].
      split; [|now left]. intros f I. apply in_or_app. now left.
    + rewrite (select_task_accepted f w Im). cbn [page reading accepted_files].
      rewrite Im. split; [trivial|now left].
  - cbn [page reading accepted_files]. rewrite app_nil_r. split.
    + intros g I. now apply in_remove_at in I.
    + destruct ok; [|now left]. rewrite fileToGenerativePart_data. right.
      exists f. split; [|reflexivity]. now apply nth_error_In in N.
  - cbn [page reading accepted_files]. rewrite app_nil_r. split; [trivial|].
    left. apply generateScene_frame.
  - cbn [page reading accepted_files]. rewrite app_nil_r. split; [trivial|].
    left. apply generateScene_resume_frame.
Qed.

Lemma encoding_from_run (es : list Event) (w w' : World) :
  run w es = Some w' ->
  encoding_from (reading w ++ accepted_files es)
    (uploadedFileAsBase64 (page w)) w'.
Proof.
  revert w. induction es as [|e es IH]; intros w; cbn [run].
  - intros E. injection E as <-. cbn [accepted_files]. rewrite app_nil_r.
    split; [trivial|now left].
  - destruct (step w e) as [w1|] eqn:S; [|discriminate].
    intros R. destruct (encoding_from_step w e w1 S) as [P1 Q1].
    destruct (IH w1 R) as [P2 Q2].
    rewrite accepted_files_cons, app_assoc.
    assert (Sub : forall f, In f (reading w1 ++ accepted_files es) ->
                            In f ((reading w ++ accepted_files [e]) ++
                                  accepted_files es)).
    { intros f I. apply in_app_or in I as [I|I]; apply in_or_app;
        [left; now apply P1|now right]. }
    split; [intros f I; apply Sub; now apply P2|].
    destruct Q2 as [Q2|(f & I & Q2)].
    + rewrite Q2. destruct Q1 as [Q1|(f & I & Q1)]; [now left|].
      right. exists f. split; [|exact Q1]. apply in_or_app. now left.
    + right. exists f. split; [now apply Sub|exact Q2].
Qed.

(** X6: in every run from the initial page, whatever the order in which
    reads end, the stored encoding is absent or is the encoder's output for a
    file that was handed to [handleFileSelect] earlier in the run and
    accepted; reads still pending are of such files too. *)
Theorem stored_encoding_is_of_an_accepted_file (es : list Event) (w : World) :
  run initial_world es = Some w ->
  (uploadedFileAsBase64 (page w) = None \/
   exists f,
     In (Select (Some f)) es /\
     startsWith "image/" (type f) = true /\
     uploadedFileAsBase64 (page w) = encoding_of f) /\
  (forall f, In f (reading w) -> In (Select (Some f)) es).
Proof.
  intros R.
  assert (A : forall f l, In f (accepted_files l) ->
                          In (Select (Some f)) l /\ is_image f = true).
  { intros f l. induction l as [|e l IH]; cbn [accepted_files]; [intros []|].
    destruct e as [[g|]|k ok| |k outcome];
      try (intros I; split; [right|]; now apply IH).
    destruct (is_image g) eqn:G.
    - intros [->|I]; [split; [now left|exact G]|].
      split; [right|]; now apply IH.
    - intros I. split; [right|]; now apply IH. }
  destruct (encoding_from_run es initial_world w R) as [P Q].
  cbn [reading initial_world app page uploadedFileAsBase64 initial_state] in P, Q.
  split.
  - destruct Q as [Q|(f & I & Q)]; [now left|]. right. exists f.
    destruct (A f es I) as [I1 I2]. now repeat split.
  - intros f I. now apply (A f es), P.
Qed.

Lemma stored_encoding_is_of_an_accepted_file_witness :
  exists w,
    run initial_world reselect_pending = Some w /\
    (uploadedFileAsBase64 (page w) = None \/
     exists f,
       In (Select (Some f)) reselect_pending /\
       startsWith "image/" (type f) = true /\
       uploadedFileAsBase64 (page w) = encoding_of f).
Proof.
  destruct (run initial_world reselect_pending) as [w|] eqn:R;
    [|vm_compute in R; discriminate R].
  exists w. split; [reflexivity|].
  exact (proj1 (stored_encoding_is_of_an_accepted_file reselect_pending w R)).
Defined.

(** ** The encoder *)

(** X7: for a file whose media type has no comma and whose read succeeds,
    [fileToGenerativePart] resolves with the file's media type and with a
    payload that is the base64 text of the file's bytes: it has no data URL
    prefix left and decodes to exactly those bytes. *)
Theorem encoder_round_trip (file : File) :
  lacks ","%char (type file) = true ->
  exists payload,
    fileToGenerativePart file (Some (readAsDataURL file)) =
      Some {| part_mimeType := type file; part_data := Some payload |} /\
    readAsDataURL file = "data:" ++ type file ++ ";base64," ++ payload /\
    Base64.decode payload = Some (bytes file).
Proof.
  intros H. exists (Base64.encode (bytes file)). split; [|split].
  - now apply fileToGenerativePart_loaded.
  - reflexivity.
  - apply Base64Facts.decode_encode.
Qed.

Lemma encoder_round_trip_witness :
  exists payload,
    fileToGenerativePart cat_png (Some (readAsDataURL cat_png)) =
      Some {| part_mimeType := "image/png"; part_data := Some payload |} /\
    Base64.decode payload = Some [x89; x50; x4e; x47].
Proof.
  destruct (encoder_round_trip cat_png eq_refl) as (payload & E & _ & D).
  exists payload. split; [exact E|exact D].
Defined.

Lemma encode_nonempty (bs : list byte) :
  bs <> [] -> exists c b, Base64.encode bs = String c b.
Proof.
  destruct bs as [|x [|y [|z rest]]]; [now intros []| | |];
    intros _; cbn [Base64.encode]; eauto.
Qed.

(** X8: a read that fails is silent: the page is left exactly as it was (no
    alert, the stored encoding kept, the new preview and the enabled trigger
    kept).  When it is the read of the first file selected, the trigger is
    enabled but a click is answered with "Please upload an image first." and
    sends nothing. *)
Theorem failed_read_is_silent (f : File) :
  startsWith "image/" (type f) = true ->
  (forall w k,
     nth_error (reading w) k = Some f ->
     step w (ReadEnd k false) =
       Some {| page := page w;
               reading := remove_at k (reading w);
               inflight := inflight w |}) /\
  exists w,
    run initial_world [Select (Some f); ReadEnd 0 false; Click] = Some w /\
    uploadedFile (page w) = Some f /\
    uploadedFileAsBase64 (page w) = None /\
    generateBtn_disabled (dom (page w)) = false /\
    effects (page w) = [Alert "Please upload an image first."] /\
    inflight w = [] /\ reading w = [].
Proof.
  intros Im. split.
  - intros w k N. unfold step. now rewrite N.
  - eexists. split.
    + cbn [run]. rewrite step_Select, (select_task_accepted f _ Im).
      cbn [step reading app nth_error]. cbn. reflexivity.
    + cbn. now repeat split.
Qed.

Lemma failed_read_is_silent_witness :
  exists w,
    run initial_world [Select (Some cat_png); ReadEnd 0 false; Click] = Some w /\
    uploadedFile (page w) = Some cat_png /\
    uploadedFileAsBase64 (page w) = None /\
    effects (page w) = [Alert "Please upload an image first."].
Proof.
  destruct (failed_read_is_silent cat_png eq_refl)
    as (_ & w & R & U & B & _ & E & _).
  exists w. now repeat split.
Defined.

(** ** The guard of [generateScene] *)

(** X9: [generateScene] sends a request exactly when a file is selected and
    the stored encoding is a non-empty string; in every other case (no file,
    no encoding, or the empty string) its only effect is the alert "Please
    upload an image first." *)
Theorem request_sent_iff_truthy (s : State) :
  ((exists r, snd (generateScene s) = Some r) <->
   (exists file c b,
      uploadedFile s = Some file /\
      uploadedFileAsBase64 s = Some (String c b))) /\
  (snd (generateScene s) = None <->
   (uploadedFile s = None \/ uploadedFileAsBase64 s = None \/
    uploadedFileAsBase64 s = Some EmptyString)) /\
  (snd (generateScene s) = None ->
   fst (generateScene s) = perform (Alert "Please upload an image first.") s).
Proof.
  destruct (generateScene_cases s)
    as [(file & c & b & Hf & Hb & E)|(H & E)]; rewrite E; cbn [fst snd].
  - split; [|split].
    + split; [intros _; now exists file, c, b|intros _; eauto].
    + split; [discriminate|]. rewrite Hf, Hb.
      intros [N|[N|N]]; discriminate N.
    + discriminate.
  - split; [|split].
    + split; [intros [r N]; discriminate N|].
      intros (file & c & b & Hf & Hb). rewrite Hf, Hb in H.
      destruct H as [N|[N|N]]; discriminate N.
    + split; [intros _; exact H|reflexivity].
    + reflexivity.
Qed.

(** X10: an image file without bytes (media type without comma) is selected
    and previewed, and its read succeeds with the empty string as encoding;
    the guard takes that for a missing image: the click alerts "Please upload
    an image first." and no request is sent. *)
Theorem empty_image_is_never_sent (f : File) :
  startsWith "image/" (type f) = true ->
  lacks ","%char (type f) = true ->
  bytes f = [] ->
  encoding_of f = Some EmptyString /\
  exists w,
    run initial_world [Select (Some f); ReadEnd 0 true; Click] = Some w /\
    uploadedFile (page w) = Some f /\
    imagePreview_src (dom (page w)) = Some f /\
    uploadedFileAsBase64 (page w) = Some EmptyString /\
    effects (page w) = [Alert "Please upload an image first."] /\
    inflight w = [].
Proof.
  intros Im C B.
  assert (E : encoding_of f = Some EmptyString).
  { unfold encoding_of. rewrite (fileToGenerativePart_loaded f C), B.
    reflexivity. }
  split; [exact E|]. eexists. split.
  - cbn [run]. rewrite step_Select, (select_task_accepted f _ Im).
    rewrite step_ReadEnd_ok with (f := f) by reflexivity. rewrite E.
    cbn [step]. cbn. reflexivity.
  - cbn. now repeat split.
Qed.

Lemma empty_image_is_never_sent_witness :
  exists w,
    run initial_world [Select (Some empty_png); ReadEnd 0 true; Click] = Some w /\
    uploadedFileAsBase64 (page w) = Some EmptyString /\
    inflight w = [].
Proof.
  destruct (empty_image_is_never_sent empty_png eq_refl eq_refl eq_refl)
    as (_ & w & R & _ & _ & B & _ & I).
  exists w. now repeat split.
Defined.

(** ** One attempt from selection to result *)

(** X11: from the initial page, selecting an image file with at least one
    byte (media type without comma), letting its read end, clicking and
    letting the call be fulfilled with a response that has an image part sends
    exactly one request, whose parts are the file's media type with the base64
    of the file's bytes and the prompt, and ends Idle with the result image
    shown, the placeholder hidden, the preview on the file and nothing
    pending. *)
Theorem select_encode_generate (f : File) (response : GenerateContentResponse) :
  startsWith "image/" (type f) = true ->
  lacks ","%char (type f) = true ->
  bytes f <> [] ->
  thrown_by (Fulfilled response) = None ->
  exists w r blob,
    run initial_world
      [Select (Some f); ReadEnd 0 true; Click; Settle 0 (Fulfilled response)] =
      Some w /\
    effects (page w) = [GenerateContent r] /\
    contents r = request_parts (type f) (Base64.encode (bytes f)) /\
    Base64.decode (Base64.encode (bytes f)) = Some (bytes f) /\
    Idle (dom (page w)) /\
    resultImage_src (dom (page w)) = Some (data_url blob) /\
    resultImage_hidden (dom (page w)) = false /\
    resultPlaceholder_hidden (dom (page w)) = true /\
    imagePreview_src (dom (page w)) = Some f /\
    reading w = [] /\ inflight w = [].
Proof.
  intros Im C B T.
  assert (E : encoding_of f = Some (Base64.encode (bytes f))).
  { unfold encoding_of. now rewrite (fileToGenerativePart_loaded f C). }
  destruct (encode_nonempty (bytes f) B) as (c & b & N).
  set (s2 := set_uploadedFileAsBase64 (Some (String c b))
               (with_dom (show_preview f) (set_uploadedFile f initial_state))).
  destruct (generateScene_cases s2)
    as [(file & c' & b' & Hf & Hb & G)|([H|[H|H]] & _)];
    try discriminate H.
  injection Hf as <-. injection Hb as <- <-.
  set (s3 := perform (GenerateContent (build_request f (String c b)))
               (with_dom enter_loading s2)) in G.
  destruct (generateScene_resume_cases (Fulfilled response) s3)
    as [(error & T' & _)|(blob & _ & Res)]; [rewrite T in T'; discriminate T'|].
  exists {| page := generateScene_resume (Fulfilled response) s3;
            reading := []; inflight := [] |},
         (build_request f (String c b)), blob.
  split.
  - cbn [run]. rewrite step_Select, (select_task_accepted f _ Im).
    rewrite step_ReadEnd_ok with (f := f) by reflexivity. rewrite E, N.
    cbn [page reading inflight initial_world app remove_at].
    fold s2. cbn [step page]. replace (generateBtn_disabled (dom s2)) with false
      by reflexivity.
    rewrite G. cbn [page reading inflight app nth_error remove_at].
    reflexivity.
  - cbn [page reading inflight]. rewrite Res.
    split; [reflexivity|]. split; [rewrite N; reflexivity|].
    split; [apply Base64Facts.decode_encode|].
    now repeat split.
Qed.

Lemma select_encode_generate_witness :
  exists w r,
    run initial_world
      [Select (Some cat_png); ReadEnd 0 true; Click;
       Settle 0 (Fulfilled text_then_image)] = Some w /\
    effects (page w) = [GenerateContent r] /\
    contents r = request_parts "image/png" "iVBORw==" /\
    resultImage_hidden (dom (page w)) = false.
Proof.
  assert (B : bytes cat_png <> []) by discriminate.
  destruct (select_encode_generate cat_png text_then_image
              eq_refl eq_refl B eq_refl)
    as (w & r & blob & R & E & Cn & _ & _ & _ & H & _).
  exists w, r. now repeat split.
Defined.

(** ** Overlapping attempts *)

(** X12: once a click has sent a request the trigger is disabled: a second
    click cannot follow, nor can one after a read ends.  But accepting another
    image file re-enables the trigger while the call is pending, and the next
    click sends a second request, with the new file's media type and the
    encoding that was stored for the previous file. *)
Theorem second_request_needs_a_selection (w : World) (r : Request) :
  generateBtn_disabled (dom (page w)) = false ->
  snd (generateScene (page w)) = Some r ->
  exists w1,
    step w Click = Some w1 /\
    inflight w1 = (inflight w ++ [r])%list /\
    step w1 Click = None /\
    (forall k ok w2, step w1 (ReadEnd k ok) = Some w2 -> step w2 Click = None) /\
    (forall g,
       startsWith "image/" (type g) = true ->
       exists w2 w3 payload,
         step w1 (Select (Some g)) = Some w2 /\
         step w2 Click = Some w3 /\
         uploadedFileAsBase64 (page w) = Some payload /\
         inflight w3 = (inflight w ++ [r; build_request g payload])%list).
Proof.
  intros D G.
  destruct (generateScene_cases (page w))
    as [(file & c & b & Hf & Hb & E)|(_ & E)]; rewrite E in G; [|discriminate G].
  cbn [snd] in G. injection G as <-.
  eexists. split; [cbn [step]; rewrite D, E; reflexivity|].
  split; [reflexivity|]. split; [reflexivity|]. split.
  - intros k ok w2 S. unfold step in S. cbn [reading page inflight] in S.
    destruct (nth_error (reading w) k) as [f|]; [|discriminate S].
    injection S as <-. cbn [step page].
    destruct (handleFileSelect_resume_cases
                (fileToGenerativePart f (if ok then Some (readAsDataURL f) else None))
                (perform (GenerateContent (build_request file (String c b)))
                   (with_dom enter_loading (page w)))) as [->|[v ->]];
      reflexivity.
  - intros g Im. rewrite step_Select, (select_task_accepted g _ Im).
    eexists. eexists. exists (String c b).
    split; [reflexivity|]. split.
    + cbn [step page]. cbn [with_dom dom show_preview generateBtn_disabled].
      unfold generateScene.
      cbn [with_dom set_uploadedFile perform uploadedFile uploadedFileAsBase64].
      rewrite Hb. reflexivity.
    + split; [exact Hb|]. cbn [inflight]. now rewrite <- app_assoc.
Qed.

Lemma second_request_needs_a_selection_witness :
  let w := {| page := ready_state; reading := []; inflight := [] |} in
  exists w1,
    step w Click = Some w1 /\
    inflight w1 = [build_request cat_png "iVBORw=="] /\
    step w1 Click = None.
Proof.
  intros w.
  destruct (second_request_needs_a_selection w
              (build_request cat_png "iVBORw==") eq_refl eq_refl)
    as (w1 & S & I & N & _).
  exists w1. now repeat split.
Defined.

(** ** Outcomes of a call *)

(** X13: a fulfilled call ends the attempt without an error exactly when the
    response has a first candidate whose list of parts has a part with inline
    data; exactly then nothing is logged or alerted, and otherwise an error is
    logged and alerted. *)
Theorem attempt_succeeds_iff_first_candidate_has_image
  (response : GenerateContentResponse) (s : State) :
  let has_image :=
    exists texts image rest others blob,
      candidates response =
        Some ({| content := Some {| parts := Some (texts ++ image :: rest)%list |} |}
              :: others) /\
      (forall p, In p texts -> inlineData p = None) /\
      inlineData image = Some blob in
  (has_image <-> snd (try_block (Fulfilled response) s) = None) /\
  (has_image <->
   effects (generateScene_resume (Fulfilled response) s) = effects s) /\
  (~ has_image ->
   exists error,
     effects (generateScene_resume (Fulfilled response) s) =
       (effects s ++
        [ConsoleError "Error generating image:" error;
         Alert ("An error occurred: " ++ message_of error)])%list).
Proof.
  intros has_image.
  assert (F : has_image <-> thrown_by (Fulfilled response) = None).
  { rewrite first_image_iff. unfold has_image, first_image. split.
    - intros (texts & image & rest & others & blob & H).
      now exists blob, texts, image, rest, others.
    - intros (blob & texts & image & rest & others & H).
      now exists texts, image, rest, others, blob. }
  split; [now rewrite try_block_thrown|].
  rewrite generateScene_resume_effects.
  destruct (thrown_by (Fulfilled response)) as [error|].
  - split; [|intros _; now exists error].
    rewrite F. split; [discriminate|]. intros E. exfalso.
    apply (f_equal (@List.length Effect)) in E.
    rewrite length_app in E. cbn [List.length] in E. lia.
  - split; [|intros N; exfalso; now apply N, F].
    rewrite F, app_nil_r. now split.
Qed.

(** ** The listeners *)

Lemma listen_all_snoc (u : Surface) (ls : list Listener) (l : Listener) :
  listen_all u (ls ++ [l]) = listen (listen_all u ls) l.
Proof. unfold listen_all. now rewrite fold_left_app. Qed.

Lemma world_listen (u : Surface) (l : Listener) :
  run (world u) (selects_of [l]) = Some (world (listen u l)).
Proof.
  destruct l as [|[[|first others]|]| | |[[|first others]|]];
    cbn [selects_of run listen world select_first]; try reflexivity;
    now rewrite step_Select.
Qed.

(** X14: the listeners reach the page only through [handleFileSelect], and
    only with the first file of a non-empty file list: a run of listeners
    leaves the page as the run of those selections does.  A change or a drop
    with a missing or empty file list does nothing to the page, not even the
    alert, and the further files of a list are ignored. *)
Theorem listeners_select_first_files (u : Surface) (ls : list Listener) :
  run (world u) (selects_of ls) = Some (world (listen_all u ls)) /\
  (forall files,
     files = None \/ files = Some [] ->
     world (listen u (ImageUploadChange files)) = world u /\
     world (listen u (Drop files)) = world u) /\
  (forall first others,
     step (world u) (Select (Some first)) =
       Some (world (listen u (ImageUploadChange (Some (first :: others))))) /\
     world (listen u (Drop (Some (first :: others)))) =
       world (listen u (ImageUploadChange (Some [first])))).
Proof.
  split; [|split].
  - revert u. induction ls as [|l ls IH]; intros u; [reflexivity|].
    change (listen_all u (l :: ls)) with (listen_all (listen u l) ls).
    rewrite <- IH. pose proof (world_listen u l) as W.
    destruct l as [|[[|first others]|]| | |[[|first others]|]];
      cbn [selects_of run listen world select_first] in *;
      try reflexivity; now rewrite step_Select in *.
  - intros files [->| ->]; now split.
  - intros first others. split; [apply step_Select|reflexivity].
Qed.

(** X15: the upload box is highlighted by a drag-over and only by it: after
    a drag-leave or a drop (whatever was dropped, even nothing or a file that
    is turned away) the border has its default colour, and if the border is
    highlighted after a run of listeners that started without highlight, a
    drag-over was among them.  Drag-over, drag-leave and the click that opens
    the picker leave the page alone. *)
Theorem highlight_follows_drag (u : Surface) (ls : list Listener) :
  (forall files,
     uploadBox_borderColor (listen_all u (ls ++ [Drop files])) =
       Some "var(--border-color)") /\
  uploadBox_borderColor (listen_all u (ls ++ [DragLeave])) =
    Some "var(--border-color)" /\
  uploadBox_borderColor (listen_all u (ls ++ [DragOver])) =
    Some "var(--primary-color)" /\
  (uploadBox_borderColor (listen_all u ls) = Some "var(--primary-color)" ->
   uploadBox_borderColor u = Some "var(--primary-color)" \/ In DragOver ls) /\
  (forall l,
     l = DragOver \/ l = DragLeave \/ l = UploadBoxClick ->
     world (listen_all u (ls ++ [l])) = world (listen_all u ls)).
Proof.
  split; [|split; [|split; [|split]]].
  - intros files. now rewrite listen_all_snoc.
  - now rewrite listen_all_snoc.
  - now rewrite listen_all_snoc.
  - revert u. induction ls as [|l ls IH]; intros u; [now left|].
    change (listen_all u (l :: ls)) with (listen_all (listen u l) ls).
    intros H. destruct (IH _ H) as [B|I]; [|right; now right].
    destruct l; cbn [listen uploadBox_borderColor] in B;
      try discriminate B; try (now left); right; now left.
  - intros l [->|[->| ->]]; now rewrite listen_all_snoc.
Qed.

(** ** What the page tells the user, and how often it calls the service *)

Lemma alert_is_known_app (fx more : list Effect) (msg : string) :
  alert_is_known fx msg -> alert_is_known (fx ++ more) msg.
Proof.
  intros [H|[H|(error & H & I)]]; [now left|right; now left|].
  right; right. exists error. split; [exact H|]. apply in_or_app. now left.
Qed.

Lemma alerts_known_step (w : World) (e : Event) (w' : World) :
  alerts_known (page w) -> step w e = Some w' -> alerts_known (page w').
Proof.
  unfold alerts_known. intros H S. step_inv S.
  - destruct (rejected_or_image file) as [Rj|(f & -> & Im)].
    + rewrite (select_task_rejected file w Rj). cbn [page perform effects].
      intros msg I. in_snoc I.
      * apply alert_is_known_app. now apply H.
      * injection I as <-. now left.
    + rewrite (select_task_accepted f w Im). exact H.
  - cbn [page].
    destruct (handleFileSelect_resume_cases
                (fileToGenerativePart f (if ok then Some (readAsDataURL f) else None))
                (page w)) as [->|[v ->]]; exact H.
  - destruct (generateScene_cases (page w))
      as [(file & c & b & Hf & Hb & E)|(_ & E)]; rewrite E;
      cbn [fst page perform effects with_dom]; intros msg I; in_snoc I.
    + apply alert_is_known_app. now apply H.
    + discriminate I.
    + apply alert_is_known_app. now apply H.
    + injection I as <-. right; now left.
  - cbn [page]. rewrite generateScene_resume_effects. intros msg I.
    apply in_app_or in I as [I|I]; [apply alert_is_known_app; now apply H|].
    destruct (thrown_by outcome) as [error|]; [|destruct I].
    destruct I as [I|[I|[]]]; [discriminate I|]. injection I as <-.
    right; right. exists error. split; [reflexivity|].
    apply in_or_app. right. now left.
Qed.

(** X16: in every run from the initial page, every alert is one of three:
    "Please select a valid image file.", "Please upload an image first.", or
    "An error occurred: " followed by the message of an error that was also
    logged to the console. *)
Theorem every_alert_is_known (es : list Event) (w : World) (msg : string) :
  run initial_world es = Some w ->
  In (Alert msg) (effects (page w)) ->
  msg = "Please select a valid image file." \/
  msg = "Please upload an image first." \/
  exists error,
    msg = "An error occurred: " ++ message_of error /\
    In (ConsoleError "Error generating image:" error) (effects (page w)).
Proof.
  intros R.
  apply (run_invariant (fun w => alerts_known (page w)) alerts_known_step
           es initial_world w); [|exact R].
  intros m [].
Qed.

Lemma every_alert_is_known_witness :
  exists w,
    run initial_world overlapping_attempts = Some w /\
    exists error,
      "An error occurred: quota exceeded" =
        "An error occurred: " ++ message_of error /\
      In (ConsoleError "Error generating image:" error) (effects (page w)).
Proof.
  destruct (run initial_world overlapping_attempts) as [w|] eqn:R;
    [|vm_compute in R; discriminate R].
  assert (I : In (Alert "An error occurred: quota exceeded") (effects (page w))).
  { vm_compute in R. injection R as <-. cbn. auto 6. }
  destruct (every_alert_is_known overlapping_attempts w _ R I)
    as [H|[H|H]]; [discriminate H|discriminate H|].
  exists w. split; [reflexivity|exact H].
Defined.

Lemma requests_sent_app (fx more : list Effect) :
  requests_sent (fx ++ more) = requests_sent fx + requests_sent more.
Proof.
  induction fx as [|x fx IH]; [reflexivity|].
  destruct x; cbn [requests_sent app]; now rewrite IH.
Qed.

Lemma length_remove_at {A : Type} (k : nat) (l : list A) (x : A) :
  nth_error l k = Some x -> List.length l = S (List.length (remove_at k l)).
Proof.
  revert k. induction l as [|y l IH]; intros k; [now destruct k|].
  destruct k as [|k]; cbn [nth_error remove_at List.length]; [reflexivity|].
  intros N. now rewrite (IH k N).
Qed.

Lemma requests_count_run (es : list Event) (w w' : World) :
  run w es = Some w' ->
  requests_sent (effects (page w')) + List.length (inflight w) =
    requests_sent (effects (page w)) + List.length (inflight w') + settles es /\
  requests_sent (effects (page w')) <=
    requests_sent (effects (page w)) + clicks es.
Proof.
  revert w. induction es as [|e es IH]; intros w; cbn [run].
  - intros E. injection E as <-. cbn [settles clicks]. lia.
  - destruct (step w e) as [w1|] eqn:S; [|discriminate].
    intros R. destruct (IH w1 R) as [I1 I2]. clear IH R.
    assert (Q : requests_sent (effects (page w1)) + List.length (inflight w) =
                requests_sent (effects (page w)) + List.length (inflight w1) +
                settles [e] /\
                requests_sent (effects (page w1)) <=
                requests_sent (effects (page w)) + clicks [e]).
    { step_inv S.
      - destruct (rejected_or_image file) as [Rj|(f & -> & Im)].
        + rewrite (select_task_rejected file w Rj).
          cbn [page inflight perform effects settles clicks].
          rewrite requests_sent_app. cbn [requests_sent]. lia.
        + rewrite (select_task_accepted f w Im). cbn. lia.
      - cbn [page inflight settles clicks].
        destruct (handleFileSelect_resume_cases
                    (fileToGenerativePart f
                       (if ok then Some (readAsDataURL f) else None))
                    (page w)) as [->|[v ->]]; cbn; lia.
      - destruct (generateScene_cases (page w))
          as [(file & c & b & Hf & Hb & E)|(_ & E)]; rewrite E;
          cbn [fst snd page inflight perform effects with_dom settles clicks];
          rewrite requests_sent_app; cbn [requests_sent];
          try rewrite length_app; cbn [List.length]; lia.
      - cbn [page inflight settles clicks].
        rewrite generateScene_resume_effects, requests_sent_app.
        rewrite (length_remove_at k (inflight w) r N).
        destruct (thrown_by outcome); cbn [requests_sent]; lia. }
    destruct Q as [Q1 Q2].
    assert (Se : settles (e :: es) = settles [e] + settles es)
      by (destruct e; reflexivity).
    assert (Ce : clicks (e :: es) = clicks [e] + clicks es)
      by (destruct e; reflexivity).
    rewrite Se, Ce. lia.
Qed.

(** X17: the page never retries and never sends on its own: in every run
    from the initial page there are at most as many requests as clicks, and
    every request sent is either still pending or has settled exactly once
    (requests sent = calls pending + calls settled). *)
Theorem one_request_per_click_at_most (es : list Event) (w : World) :
  run initial_world es = Some w ->
  requests_sent (effects (page w)) <= clicks es /\
  requests_sent (effects (page w)) = List.length (inflight w) + settles es.
Proof.
  intros R. destruct (requests_count_run es initial_world w R) as [I1 I2].
  cbn [initial_world initial_state page effects inflight requests_sent List.length]
    in I1, I2.
  lia.
Qed.

Lemma one_request_per_click_at_most_witness :
  exists w,
    run initial_world overlapping_attempts = Some w /\
    requests_sent (effects (page w)) = List.length (inflight w) + 2.
Proof.
  destruct (run initial_world overlapping_attempts) as [w|] eqn:R;
    [|vm_compute in R; discriminate R].
  exists w. split; [reflexivity|].
  exact (proj2 (one_request_per_click_at_most overlapping_attempts w R)).
Defined.
